(** * Noted-Cli: the commit-propagation helper and its small companions

    A shallow embedding of the JavaScript sources of Noted-Cli that deal
    with repository roots, submodule detection, committing and propagating
    a commit to a superproject, and the name-collision loop used when a
    workspace, folder or note is created.

    - [commitChanges] embeds [commitChanges] of the commit helper with a
      branch argument (src/unnamed/part_009), [isSubmodule] the submodule
      query of the same file (identical in src/functions/validations.js);
    - [Helper.commitChanges] embeds the older variant
      src/functions/commitHelper.js;
    - [findWorkspaceRoot] embeds src/unnamed/part_006, [getWorkspaceRoot]
      src/commands/nav.js;
    - [nextName] embeds the `while (fs.existsSync(...))` loops of
      src/functions/getters.js and src/unnamed/part_001.

    The version-control engine (simple-git over git) is external to the
    repository; it is modelled as an executable engine on an explicit world
    of repositories, following the contract of the spec's section 6:
    path-scoped staging, a commit that records nothing when nothing is
    staged (simple-git resolves it, see [git_commit]),
    checkout of an existing or of a new branch, the current-branch query
    reporting [HEAD] when detached, and the superproject query. *)

From Stdlib Require Import Ascii.
From Stdlib Require Lists.Finite.
From stdpp Require Import base gmap list strings pretty.

Open Scope string_scope.

(* ------------------------------------------------------------------ *)
(** ** JavaScript strings *)

(** The whitespace removed by [String.prototype.trim] (ASCII part). *)
Definition is_ws (c : ascii) : bool :=
  match nat_of_ascii c with
  | 32 | 9 | 10 | 11 | 12 | 13 => true
  | _ => false
  end.

Fixpoint trim_start (s : string) : string :=
  match s with
  | EmptyString => EmptyString
  | String c s' => if is_ws c then trim_start s' else s
  end.

Fixpoint trim_end (s : string) : string :=
  match s with
  | EmptyString => EmptyString
  | String c s' =>
      let t := trim_end s' in
      if String.eqb t "" && is_ws c then EmptyString else String c t
  end.

Fixpoint str_forallb (f : ascii -> bool) (s : string) : bool :=
  match s with
  | EmptyString => true
  | String c s' => f c && str_forallb f s'
  end.

(** [s.trim()] *)
Definition trim (s : string) : string := trim_end (trim_start s).

Example trim_ex : trim (String (ascii_of_nat 32) ("/a b" +:+ String (ascii_of_nat 10) "")) = "/a b".
Proof. reflexivity. Qed.

(** A double quote character, for the messages built with template
    literals that contain quotes. *)
Definition dq : string := String (ascii_of_nat 34) EmptyString.

(** [`${n}`] for a non-negative integer counter. *)
Definition num_str (n : nat) : string := pretty n.

(* ------------------------------------------------------------------ *)
(** ** Name-collision loop (getters.js getWorkspaceName, lines 37-47;
    part_001 foldersCommand, lines 29-34) *)

(** [let counter = 1; while (fs.existsSync(path.join(dir, name))) {
      name = `${baseName}-${counter}`; counter++; } return name;]
    The directory listing is the predicate [exists]; [fuel] bounds the
    number of iterations, [None] meaning that the loop ran out of it. *)
Fixpoint nameLoop (fuel : nat) (exists_ : string -> bool)
    (baseName name : string) (counter : nat) : option string :=
  match fuel with
  | O => None
  | S fuel' =>
      if exists_ name
      then nameLoop fuel' exists_ baseName
             (baseName +:+ "-" +:+ num_str counter) (S counter)
      else Some name
  end.

Definition nextName (fuel : nat) (existing : list string) (baseName : string)
    : option string :=
  nameLoop fuel (fun n => bool_decide (n ∈ existing)) baseName baseName 1.

(** The k-th candidate name: the base name for k = 0, [base-k] after. *)
Definition candidate (baseName : string) (k : nat) : string :=
  match k with
  | O => baseName
  | _ => baseName +:+ "-" +:+ num_str k
  end.

Example nextName_free : nextName 5 ["a"; "b"] "note" = Some "note".
Proof. reflexivity. Qed.

Example nextName_taken :
  nextName 5 ["note"; "note-1"; "note-3"] "note" = Some "note-2".
Proof. reflexivity. Qed.

(* ------------------------------------------------------------------ *)
(** ** Paths *)

(** An absolute POSIX path, by its components below "/": "/a/b" is
    ["a"; "b"] and "/" is []. The CLI always starts from [process.cwd()],
    which is absolute. *)
Abbreviation path := (list string).

(** [path.join(dir, name)] for a single component [name]. *)
Definition join (dir : path) (name : string) : path := dir ++ [name].

(** [path.dirname]: the parent, and "/" for "/". *)
Definition dirname (p : path) : path :=
  match p with
  | [] => []
  | _ => removelast p
  end.

(** [path.basename]: the last component, "" for "/". *)
Definition basename (p : path) : string := default "" (last p).

(** The printed form of a path, "/" followed by its components. *)
Fixpoint path_str_go (p : path) : string :=
  match p with
  | [] => ""
  | [c] => c
  | c :: p' => c +:+ "/" +:+ path_str_go p'
  end.

Definition path_str (p : path) : string := "/" +:+ path_str_go p.

(** Reading a path string back into components: split at "/" and drop
    empty components ("/a//b" names the same directory as "/a/b"). *)
Definition slash : ascii := "/"%char.

Fixpoint split_slash (s : string) : list string :=
  match s with
  | EmptyString => [EmptyString]
  | String a s' =>
      if bool_decide (a = slash) then EmptyString :: split_slash s'
      else match split_slash s' with
           | [] => [String a EmptyString]
           | c :: cs => String a c :: cs
           end
  end.

Definition parse_path (s : string) : path :=
  filter (fun c => c <> EmptyString) (split_slash s).

(** [path.relative(from, to)] on components: drop the common prefix, climb
    out of the rest of [from] with "..", descend into the rest of [to]. *)
Fixpoint relative (from to : path) : list string :=
  match from, to with
  | f :: from', t :: to' =>
      if bool_decide (f = t) then relative from' to'
      else replicate (length from) ".." ++ to
  | _, _ => replicate (length from) ".." ++ to
  end.

(** A relative path string: components joined by "/", "" when none. *)
Definition rel_str (l : list string) : string := path_str_go l.

Example parse_path_ex : parse_path "/home/u//Noted" = ["home"; "u"; "Noted"].
Proof. reflexivity. Qed.

Example relative_ex :
  rel_str (relative ["home"; "u"; "ws"] ["home"; "u"; "ws"; "a"; "b"]) = "a/b".
Proof. reflexivity. Qed.

(* ------------------------------------------------------------------ *)
(** ** Repository locators (part_006 findWorkspaceRoot, nav.js
    getWorkspaceRoot)

    The filesystem is the predicate [fs_exists] ([fs.existsSync]); the
    [while] loops take a fuel bound and return [None] when it runs out,
    [Some r] when the JavaScript function returns [r]. *)

(** part_006, lines 7-19:
    [while (!fs.existsSync(path.join(workspaceRoot, '.git'))) {
       const parentPath = path.dirname(workspaceRoot);
       if (parentPath === workspaceRoot) return null;
       workspaceRoot = parentPath; }
     return workspaceRoot;] *)
Fixpoint findWorkspaceRoot (fuel : nat) (fs_exists : path -> bool)
    (workspaceRoot : path) : option (option path) :=
  match fuel with
  | O => None
  | S fuel' =>
      if fs_exists (join workspaceRoot ".git") then Some (Some workspaceRoot)
      else
        let parentPath := dirname workspaceRoot in
        if bool_decide (parentPath = workspaceRoot) then Some None
        else findWorkspaceRoot fuel' fs_exists parentPath
  end.

(** nav.js, lines 47-56:
    [let dir = currentDir;
     while (dir !== '/') {
       if (fs.existsSync(path.join(dir, '.git'))) return dir;
       dir = path.dirname(dir); }
     return null;] *)
Fixpoint getWorkspaceRoot (fuel : nat) (fs_exists : path -> bool) (dir : path)
    : option (option path) :=
  match fuel with
  | O => None
  | S fuel' =>
      if bool_decide (dir <> []) then
        if fs_exists (join dir ".git") then Some (Some dir)
        else getWorkspaceRoot fuel' fs_exists (dirname dir)
      else Some None
  end.

Example findWorkspaceRoot_found :
  findWorkspaceRoot 5 (fun p => bool_decide (p = ["home"; "u"; "Noted"; ".git"]))
    ["home"; "u"; "Noted"; "ws"] = Some (Some ["home"; "u"; "Noted"]).
Proof. reflexivity. Qed.

Example getWorkspaceRoot_none :
  getWorkspaceRoot 5 (fun _ => false) ["tmp"; "x"] = Some None.
Proof. reflexivity. Qed.

(* ------------------------------------------------------------------ *)
(** ** Calls to the version-control engine

    Each [simpleGit(dir).op(...)] call of the code is a [gcall] carrying the
    directory [dir] the handle was created on; every call answers with a
    string (what simple-git resolves with) or rejects with a message. *)

Inductive gcall :=
  | RevparseTop (dir : path)                  (* revparse(['--show-toplevel']) *)
  | AbbrevHead (dir : path)                   (* revparse(['--abbrev-ref', 'HEAD']) *)
  | Checkout (dir : path) (b : string)        (* checkout(b) *)
  | CheckoutLocalBranch (dir : path) (b : string)  (* checkoutLocalBranch(b) *)
  | Add (dir : path) (pathspec : string)      (* add(pathspec) *)
  | Commit (dir : path) (msg : string)        (* commit(msg) *)
  | RawSuperproject (dir : path).             (* raw(['rev-parse', '--show-superproject-working-tree']) *)

Inductive result (A : Type) :=
  | Ok (a : A)
  | Err (e : string).
Arguments Ok {A} a.
Arguments Err {A} e.

(** Console output: [console.log] and [console.error] lines (chalk only
    colours them). *)
Inductive line :=
  | LogLine (s : string)
  | ErrorLine (s : string).

Section Code.
(** The engine: its state, and its answer to each call. *)
Context {estate : Type}.
Variable erun : gcall -> estate -> result string * estate.

(** The state threaded through an [async] function: the engine, the
    calls made so far with their answers, and the console. *)
Record st := mkSt {
  st_eng : estate;
  st_trace : list (gcall * result string);
  st_out : list line
}.

Definition M (A : Type) := st -> result A * st.

Definition ret {A} (a : A) : M A := fun s => (Ok a, s).

Definition bind {A B} (m : M A) (k : A -> M B) : M B :=
  fun s => match m s with
           | (Ok a, s') => k a s'
           | (Err e, s') => (Err e, s')
           end.

(** [try { m } catch (error) { h(error.message) }] *)
Definition mcatch {A} (m : M A) (h : string -> M A) : M A :=
  fun s => match m s with
           | (Ok a, s') => (Ok a, s')
           | (Err e, s') => h e s'
           end.

(** [await simpleGit(dir).op(...)] *)
Definition git (c : gcall) : M string :=
  fun s => let '(r, e') := erun c (st_eng s) in
           (r, mkSt e' (st_trace s ++ [(c, r)]) (st_out s)).

Definition log (msg : string) : M unit :=
  fun s => (Ok tt, mkSt (st_eng s) (st_trace s) (st_out s ++ [LogLine msg])).

Definition log_error (msg : string) : M unit :=
  fun s => (Ok tt, mkSt (st_eng s) (st_trace s) (st_out s ++ [ErrorLine msg])).
End Code.

Arguments M : clear implicits.
Arguments git {estate} erun c.

Notation "x <- m ;; k" := (bind m (fun x => k))
  (at level 100, m at next level, right associativity).
Notation "m ;;; k" := (bind m (fun _ => k))
  (at level 100, right associativity).

(* ------------------------------------------------------------------ *)
(** ** The commit helper (src/unnamed/part_009) *)

Section Propagator.
Context {estate : Type}.
Variable erun : gcall -> estate -> result string * estate.
Local Abbreviation git := (git erun).
Local Abbreviation M := (M estate).

(** part_009 lines 6-17 (and validations.js lines 10-21):
    [try { const result = await git.raw([...]);
           if (result && result.trim()) return result.trim(); }
     catch (error) {}
     return null;] *)
Definition isSubmodule (repoPath : path) : M (option string) :=
  mcatch
    (result <- git (RawSuperproject repoPath) ;;
     if negb (String.eqb result "") && negb (String.eqb (trim result) "")
     then ret (Some (trim result))
     else ret None)
    (fun _ => ret None).

(** Lines 41-71 of the [try] block of [commitChanges]: staging,
    committing, and the superproject update ([repoGit] is the same
    [simpleGit(repoRoot)] handle as in lines 21-39). *)
Definition commitChanges_stage (currentPath : path)
    (commitMessage repoRoot : string) : M unit :=
  let repoGit := parse_path repoRoot in
  let relativePath :=
    match rel_str (relative (parse_path repoRoot) currentPath) with
    | EmptyString => "."
    | r => r
    end in
  git (Add repoGit (relativePath +:+ "/.")) ;;;
  log "✔ Staged changes from current directory." ;;;
  git (Commit repoGit commitMessage) ;;;
  log ("✔ Committed changes: " +:+ dq +:+ commitMessage +:+ dq +:+ " to "
       +:+ repoRoot) ;;;
  parentRepoPath <- isSubmodule repoGit ;;
  match parentRepoPath with
  | Some parentRepoPath =>
      log ("✔ Detected submodule. Updating parent repository at "
           +:+ parentRepoPath) ;;;
      let parentGit := parse_path parentRepoPath in
      let submoduleName := basename (parse_path repoRoot) in
      git (Add parentGit ("./" +:+ submoduleName)) ;;;
      log ("✔ Staged submodule '" +:+ submoduleName +:+ "' in parent repository.") ;;;
      git (Commit parentGit ("Update submodule: " +:+ dq +:+ submoduleName +:+ dq
                             +:+ " - " +:+ commitMessage)) ;;;
      log ("✔ Committed submodule update for '" +:+ submoduleName
           +:+ "' to parent repository at " +:+ parentRepoPath +:+ ".")
  | None => log "✔ No parent repository update needed."
  end.

(** The body of the [try] block of [commitChanges], lines 21-71. *)
Definition commitChanges_body (currentPath : path)
    (commitMessage branchName : string) : M unit :=
  repoRoot <- git (RevparseTop currentPath) ;;
  let repoGit := parse_path repoRoot in
  currentBranch <- git (AbbrevHead repoGit) ;;
  (if String.eqb (trim currentBranch) "HEAD" then
     mcatch
       (git (Checkout repoGit branchName) ;;;
        log ("✔ Checked out branch '" +:+ branchName +:+ "' in " +:+ repoRoot))
       (fun _ =>
        git (CheckoutLocalBranch repoGit branchName) ;;;
        log ("✔ Created and checked out new branch '" +:+ branchName
             +:+ "' in " +:+ repoRoot))
   else ret tt) ;;;
  commitChanges_stage currentPath commitMessage repoRoot.

(** part_009 lines 19-75; [branchName] defaults to ['main'] and no caller
    passes it. *)
Definition commitChanges (currentPath : path)
    (commitMessage branchName : string) : M unit :=
  mcatch (commitChanges_body currentPath commitMessage branchName)
    (fun e => log_error ("✖ Error committing changes: " +:+ e)).
End Propagator.

(** ** The older commit helper (src/functions/commitHelper.js) *)

Module Helper.
Section HelperCode.
Context {estate : Type}.
Variable erun : gcall -> estate -> result string * estate.
Local Abbreviation git := (git erun).
Local Abbreviation M := (M estate).

(** Lines 23-55 (its [isSubmodule], lines 7-19, is the one above). *)
Definition commitChanges_body (repoPath : path) (commitMessage : string)
    : M unit :=
  git (Add repoPath ".") ;;;
  log "✔ Staged all changes in the current workspace." ;;;
  git (Commit repoPath commitMessage) ;;;
  log ("✔ Committed changes: " +:+ dq +:+ commitMessage +:+ dq +:+ " to "
       +:+ path_str repoPath) ;;;
  parentRepoPath <- isSubmodule erun repoPath ;;
  match parentRepoPath with
  | Some parentRepoPath =>
      log ("✔ Detected submodule. Updating parent repository at "
           +:+ parentRepoPath) ;;;
      let parentGit := parse_path parentRepoPath in
      let submoduleName := basename repoPath in
      git (Add parentGit parentRepoPath) ;;;
      log ("✔ Staged submodule '" +:+ submoduleName +:+ "' in parent repository.") ;;;
      git (Commit parentGit ("Update submodule: " +:+ dq +:+ submoduleName +:+ dq
             +:+ " to latest commit in workspace: " +:+ dq +:+ commitMessage +:+ dq)) ;;;
      log ("✔ Committed submodule update for '" +:+ submoduleName
           +:+ "' to parent repository at " +:+ parentRepoPath +:+ ".")
  | None => log "✔ No parent repository update needed."
  end.

(** Lines 21-59. *)
Definition commitChanges (repoPath : path) (commitMessage : string) : M unit :=
  mcatch (commitChanges_body repoPath commitMessage)
    (fun e => log_error ("✖ Error committing changes: " +:+ e)).
End HelperCode.
End Helper.

(* ------------------------------------------------------------------ *)
(** ** The version-control engine on a world of repositories

    A model of the git behaviour the helper relies on. A repository has a
    HEAD (detached at a commit or on a branch), local branches, its commits
    (a commit's id is its position), the index, the files of its working
    tree, and the superproject it is registered in, if any. The working
    tree of a superproject also shows, at each submodule's directory, a
    link to the commit checked out in that submodule. *)

Inductive content :=
  | Blob (s : string)
  | Link (c : nat).

Global Instance content_eq_dec : EqDecision content.
Proof. solve_decision. Defined.

Definition is_blob (v : content) : bool :=
  match v with Blob _ => true | Link _ => false end.

Abbreviation tree := (gmap path content).

Inductive head_ref :=
  | Detached (c : nat)
  | OnBranch (b : string).

Record repo := mkRepo {
  head : head_ref;
  refs : gmap string nat;
  commits : list (string * tree);
  index : tree;
  files : tree;
  super : option path
}.

Global Instance head_ref_eq_dec : EqDecision head_ref.
Proof. solve_decision. Defined.

Global Instance repo_eq_dec : EqDecision repo.
Proof. solve_decision. Defined.

Abbreviation world := (gmap path repo).

Definition newline : string := String (ascii_of_nat 10) EmptyString.

Definition head_commit (r : repo) : option nat :=
  match head r with
  | Detached c => Some c
  | OnBranch b => refs r !! b
  end.

Definition commit_tree (r : repo) (c : nat) : tree :=
  default ∅ (snd <$> commits r !! c).

Definition head_tree (r : repo) : tree :=
  from_option (commit_tree r) ∅ (head_commit r).

Fixpoint is_prefix (p q : path) : bool :=
  match p, q with
  | [], _ => true
  | a :: p', b :: q' => bool_decide (a = b) && is_prefix p' q'
  | _, _ => false
  end.

(** The link a superproject at [P] shows for the repository [rS]. *)
Definition link_of (P : path) (rS : repo) : option content :=
  if bool_decide (super rS = Some P) then Link <$> head_commit rS else None.

Definition gitlinks (W : world) (P : path) : tree :=
  foldr (fun '(Sp, rS) acc =>
           if is_prefix P Sp then
             match link_of P rS with
             | Some v => <[drop (length P) Sp := v]> acc
             | None => acc
             end
           else acc) ∅ (map_to_list W).

(** What [git add] sees in the working tree of the repository at [P]. *)
Definition worktree (W : world) (P : path) (r : repo) : tree :=
  gitlinks W P ∪ files r.

(** [dst] with the entries selected by [sel] taken from [src]. *)
Definition overlay (sel : path -> bool) (src dst : tree) : tree :=
  filter (fun kv => sel kv.1 = false) dst ∪ filter (fun kv => sel kv.1 = true) src.

(** The repository enclosing a directory: its deepest ancestor that is a
    repository root (the path is given reversed). *)
Fixpoint toplevel_go (W : world) (rp : list string) : option path :=
  match W !! rev rp with
  | Some _ => Some (rev rp)
  | None =>
      match rp with
      | [] => None
      | _ :: rp' => toplevel_go W rp'
      end
  end.

Definition toplevel (W : world) (dir : path) : option path :=
  toplevel_go W (rev dir).

(** Resolving "." and ".." in a relative path; [None] when it climbs out. *)
Fixpoint normalize_go (acc : list string) (l : list string) : option path :=
  match l with
  | [] => Some (rev acc)
  | c :: l' =>
      if bool_decide (c = "" \/ c = ".") then normalize_go acc l'
      else if bool_decide (c = "..") then
        match acc with
        | [] => None
        | _ :: acc' => normalize_go acc' l'
        end
      else normalize_go (c :: acc) l'
  end.

(** The part of the repository at [root] a pathspec given in [dir] covers,
    as a path relative to [root]; [None] when it is outside. *)
Definition pathspec_prefix (root dir : path) (ps : string) : option path :=
  match ps with
  | EmptyString => None
  | String a _ =>
      if bool_decide (a = slash) then
        match normalize_go [] (split_slash ps) with
        | Some p => if is_prefix root p then Some (drop (length root) p) else None
        | None => None
        end
      else normalize_go [] (drop (length root) dir ++ split_slash ps)
  end.

(** The paths on which the trees of HEAD and of commit [c] differ. *)
Definition checkout_changed (r : repo) (c : nat) : list path :=
  filter (fun q => head_tree r !! q <> commit_tree r c !! q)
    (elements (dom (head_tree r) ∪ dom (commit_tree r c))).

(** git refuses to switch when one of those paths has a staged or an
    unstaged local change. *)
Definition checkout_conflict (W : world) (root : path) (r : repo) (c : nat) : bool :=
  existsb (fun q => bool_decide (index r !! q <> head_tree r !! q
                                 \/ worktree W root r !! q <> head_tree r !! q))
    (checkout_changed r c).

Definition git_checkout (W : world) (root : path) (r : repo) (b : string) (c : nat)
    : result string * world :=
  let new := commit_tree r c in
  let changed := checkout_changed r c in
  if checkout_conflict W root r c
  then (Err "error: Your local changes to the following files would be overwritten by checkout", W)
  else
    let sel q := bool_decide (q ∈ changed) in
    (Ok "", <[root := mkRepo (OnBranch b) (refs r) (commits r)
                      (overlay sel new (index r))
                      (overlay sel (filter (fun kv => is_blob kv.2 = true) new) (files r))
                      (super r)]> W).

(** Branch names git refuses (check-ref-format, in part): the empty name,
    [HEAD], names containing whitespace. *)
Definition valid_branch_name (b : string) : bool :=
  negb (String.eqb b "") && negb (String.eqb b "HEAD")
  && str_forallb (fun a => negb (is_ws a)) b.

Definition git_checkout_local_branch (W : world) (root : path) (r : repo) (b : string)
    : result string * world :=
  if negb (valid_branch_name b)
  then (Err ("fatal: '" +:+ b +:+ "' is not a valid branch name"), W) else
  match refs r !! b with
  | Some _ => (Err ("fatal: a branch named '" +:+ b +:+ "' already exists"), W)
  | None =>
      let refs' := match head_commit r with
                   | Some c => <[b := c]> (refs r)
                   | None => refs r
                   end in
      (Ok "", <[root := mkRepo (OnBranch b) refs' (commits r) (index r) (files r) (super r)]> W)
  end.

Definition git_add (W : world) (root dir : path) (r : repo) (ps : string)
    : result string * world :=
  match pathspec_prefix root dir ps with
  | None => (Err ("fatal: " +:+ ps +:+ ": '" +:+ ps +:+ "' is outside repository"), W)
  | Some pre =>
      (Ok "", <[root := mkRepo (head r) (refs r) (commits r)
                         (overlay (is_prefix pre) (worktree W root r) (index r))
                         (files r) (super r)]> W)
  end.

(** With nothing staged, git makes no commit and exits with status 1, but
    writes its report to stdout only; simple-git rejects a call only when
    the process exits non-zero and writes to stderr, so [commit] resolves. *)
Definition git_commit (W : world) (root : path) (r : repo) (msg : string)
    : result string * world :=
  if bool_decide (index r = head_tree r)
  then (Ok "nothing to commit, working tree clean", W)
  else
    let c := length (commits r) in
    let r' := mkRepo
                (match head r with Detached _ => Detached c | OnBranch b => OnBranch b end)
                (match head r with Detached _ => refs r | OnBranch b => <[b := c]> (refs r) end)
                (commits r ++ [(msg, index r)]) (index r) (files r) (super r) in
    (Ok "", <[root := r']> W).

Definition world_run (c : gcall) (W : world) : result string * world :=
  let with_repo (dir : path) (k : path -> repo -> result string * world) :=
    match toplevel W dir with
    | Some root =>
        match W !! root with
        | Some r => k root r
        | None => (Err "fatal: not a git repository", W)
        end
    | None => (Err "fatal: not a git repository (or any of the parent directories): .git", W)
    end in
  match c with
  | RevparseTop dir => with_repo dir (fun root _ => (Ok (path_str root), W))
  | AbbrevHead dir =>
      with_repo dir (fun _ r =>
        match head r with
        | Detached _ => (Ok "HEAD", W)
        | OnBranch b =>
            match refs r !! b with
            | Some _ => (Ok b, W)
            | None => (Err "fatal: ambiguous argument 'HEAD': unknown revision", W)
            end
        end)
  | Checkout dir b =>
      with_repo dir (fun root r =>
        match refs r !! b with
        | Some c => git_checkout W root r b c
        | None => (Err ("error: pathspec '" +:+ b +:+ "' did not match any file(s) known to git"), W)
        end)
  | CheckoutLocalBranch dir b => with_repo dir (fun root r => git_checkout_local_branch W root r b)
  | Add dir ps => with_repo dir (fun root r => git_add W root dir r ps)
  | Commit dir msg => with_repo dir (fun root r => git_commit W root r msg)
  | RawSuperproject dir =>
      with_repo dir (fun _ r =>
        (Ok (match super r with Some P => path_str P +:+ newline | None => "" end), W))
  end.





(* ------------------------------------------------------------------ *)
(** ** Observing a run *)

(** The calls made between two states of a run. *)
Definition new_calls {E : Type} (s s' : @st E) : list (gcall * result string) :=
  drop (length (st_trace s)) (st_trace s').

Definition is_commit (c : gcall) : bool :=
  match c with Commit _ _ => true | _ => false end.

(** The directories the superproject query was made on. *)
Definition super_queries (l : list (gcall * result string)) : list path :=
  omap (fun cr => match cr.1 with RawSuperproject d => Some d | _ => None end) l.

(** The first superproject query, its answer and the calls made after it. *)
Fixpoint after_super_query (l : list (gcall * result string))
    : option (path * result string * list gcall) :=
  match l with
  | [] => None
  | (RawSuperproject d, r) :: rest => Some (d, r, map fst rest)
  | _ :: rest => after_super_query rest
  end.

(** What [isSubmodule] makes of an answer to the superproject query. *)
Definition reported (r : result string) : option string :=
  match r with
  | Ok out => if negb (String.eqb out "") && negb (String.eqb (trim out) "")
              then Some (trim out) else None
  | Err _ => None
  end.


(* ------------------------------------------------------------------ *)
(** ** Notions used in the proofs *)

Definition no_ws (s : string) : bool := str_forallb (fun a => negb (is_ws a)) s.

Definition no_slash (s : string) : bool :=
  str_forallb (fun a => negb (bool_decide (a = slash))) s.







(* ------------------------------------------------------------------ *)
(** ** Concrete situations *)

(** An engine whose superproject query prints an empty line. *)
Definition blank_engine (c : gcall) (e : unit) : result string * unit :=
  (Ok newline, e).

Definition start {E : Type} (e : E) : st (estate := E) := mkSt e [] [].

(** A parent repository [/home/u/Noted] with a workspace submodule [ws]:
    the workspace has an edited note under [a] and a draft under [b]; the
    parent has an unrelated edit of its README. *)
Definition noted : path := ["home"; "u"; "Noted"].
Definition ws : path := ["home"; "u"; "Noted"; "ws"].

Definition ws_tree : tree := {[ ["a"; "n.md"] := Blob "old"; ["b"; "m.md"] := Blob "old" ]}.

Definition ws_repo : repo :=
  mkRepo (OnBranch "main") {[ "main" := 0 ]} [("init", ws_tree)] ws_tree
    {[ ["a"; "n.md"] := Blob "new"; ["b"; "m.md"] := Blob "draft" ]} (Some noted).

Definition noted_tree : tree := {[ ["ws"] := Link 0; ["README.md"] := Blob "r" ]}.

Definition noted_repo : repo :=
  mkRepo (OnBranch "main") {[ "main" := 0 ]} [("init", noted_tree)] noted_tree
    {[ ["README.md"] := Blob "r2" ]} None.

Definition demo_world : world := {[ noted := noted_repo; ws := ws_repo ]}.



Definition helper_call : result unit * st :=
  Helper.commitChanges world_run ws "Add note" (start demo_world).

Definition propagator_call : result unit * st :=
  commitChanges world_run ws "Add note" "main" (start demo_world).





(* ================================================================== *)
(** * More of the command-line tool

    The commands of src/unnamed/part_001 (folder), part_002 (note),
    the navigation of src/commands/nav.js, [getSubmodules] of part_006
    and the workspace listing of part_007, over an explicit file system. *)

(* ------------------------------------------------------------------ *)
(** ** More of JavaScript's string and path operations *)

(** [s.startsWith(pre)] *)
Definition startsWith (s pre : string) : bool := String.prefix pre s.

(** [s.endsWith(suf)] *)
Definition endsWith (s suf : string) : bool :=
  let n := String.length s in
  let m := String.length suf in
  Nat.leb m n && String.eqb (String.substring (n - m) m s) suf.

(** [s.replace(pat, rep)] with a string pattern: the first occurrence
    only. *)
Definition js_replace (s pat rep : string) : string :=
  match String.index 0 pat s with
  | Some n =>
      String.substring 0 n s +:+ rep
      +:+ String.substring (n + String.length pat)
            (String.length s - (n + String.length pat)) s
  | None => s
  end.

(** [s.split(sep)] for a one-character separator. *)
Fixpoint split_char (sep : ascii) (s : string) : list string :=
  match s with
  | EmptyString => [EmptyString]
  | String a s' =>
      if Ascii.eqb a sep then EmptyString :: split_char sep s'
      else match split_char sep s' with
           | [] => [String a EmptyString]
           | c :: cs => String a c :: cs
           end
  end.

(** [String(v)] of an array element read with [parts[i]]: [undefined]
    when the index is out of range. *)
Definition js_show (v : option string) : string :=
  match v with
  | Some s => s
  | None => "undefined"
  end.

(** [path.join(dir, s)] for an absolute, normalised [dir] (what
    [process.cwd()] and the locators give) and any string [s]: the
    components of [s] are appended, "" and "." are dropped and ".." climbs
    one level, never above "/". (A trailing "/" that Node keeps names the
    same directory and is dropped.) *)
Fixpoint normalize_abs (acc : list string) (l : list string) : path :=
  match l with
  | [] => rev acc
  | c :: l' =>
      if bool_decide (c = "" \/ c = ".") then normalize_abs acc l'
      else if bool_decide (c = "..") then normalize_abs (tail acc) l'
      else normalize_abs (c :: acc) l'
  end.

Definition join_str (dir : path) (s : string) : path :=
  normalize_abs (rev dir) (split_slash s).

Example join_str_ex : join_str ["home"; "u"] "../v/./w" = ["home"; "v"; "w"].
Proof. reflexivity. Qed.

(* ------------------------------------------------------------------ *)
(** ** The navigator (src/commands/nav.js) *)

(** Lines 35-44:
    [let dir = currentDir;
     while (dir !== '/') {
       if (fs.existsSync(path.join(dir, '.notedconfig'))) return dir;
       dir = path.dirname(dir); }
     return null;] *)
Fixpoint getNotedRepoRoot (fuel : nat) (fs_exists : path -> bool) (dir : path)
    : option (option path) :=
  match fuel with
  | O => None
  | S fuel' =>
      if bool_decide (dir <> []) then
        if fs_exists (join dir ".notedconfig") then Some (Some dir)
        else getNotedRepoRoot fuel' fs_exists (dirname dir)
      else Some None
  end.

(** An entry of [fs.readdirSync(source, { withFileTypes: true })]. *)
Record dirent := mkDirent {
  dirent_name : string;
  dirent_isDirectory : bool;
  dirent_isFile : bool
}.

(** Lines 23-26. *)
Definition getDirectories (entries : list dirent) : list string :=
  map dirent_name
    (filter (fun d => dirent_isDirectory d && negb (startsWith (dirent_name d) "."))
       entries).

(** Lines 29-32. *)
Definition getNotes (entries : list dirent) : list string :=
  map dirent_name
    (filter (fun d => dirent_isFile d && endsWith (dirent_name d) ".md"
                      && negb (startsWith (dirent_name d) "."))
       entries).

(** What one call of [navigateFolders] does: the prompts it shows (with
    their messages and choices), the folders and notes it opens, and the
    "Exiting..." lines. *)
Inductive nav_event :=
  | AskList (message : string) (choices : list string)
  | OpenFolderInFinder (p : path)        (* openFolderInFinder(p) *)
  | OpenNoteInEditor (p : path)          (* openNoteInEditor(p) *)
  | Exiting.                             (* console.log('Exiting...') *)

(** How the call ends: [return navigateFolders(p, label)], a thrown
    error, or a plain return. *)
Inductive nav_next :=
  | NavTo (p : path) (label : string)
  | NavThrow (msg : string)
  | NavReturn.

(** Lines 112-191. The emoji are in UTF-8, in which [startsWith] and the
    first-occurrence [replace] act as on JavaScript's UTF-16 strings.
    [selection] answers the first prompt, [folderAction] the folder prompt
    and [noteAction] the note prompt (each is read only if its prompt is
    shown). [navigateWorkspaces] is defined nowhere in the sources: calling
    it throws a [ReferenceError]. *)
Definition navigateFolders (cwd currentPath : path) (currentFolder : string)
    (entries : list dirent) (selection folderAction noteAction : string)
    : list nav_event * nav_next :=
  let folders := getDirectories entries in
  let notes := getNotes entries in
  let choices := (map (fun f => "📂 " +:+ f) folders
                  ++ map (fun n => "📝 " +:+ n) notes ++ ["Go Back"; "Exit"])%list in
  let asked := [AskList ("You are in " +:+ dq +:+ currentFolder +:+ dq
                          +:+ ". Choose an option:") choices] in
  if String.eqb selection "Go Back" then
    if bool_decide (currentPath = cwd)
    then (asked, NavThrow "ReferenceError: navigateWorkspaces is not defined")
    else
      let parentPath := dirname currentPath in
      let parentFolder := basename parentPath in
      (asked, NavTo parentPath parentFolder)
  else if String.eqb selection "Exit" then ((asked ++ [Exiting])%list, NavReturn)
  else
    let '(ev1, ret1) :=
      if startsWith selection "📂" then
        let folderName := js_replace selection "📂 " "" in
        let newPath := join_str currentPath folderName in
        let ask := AskList ("You selected folder " +:+ dq +:+ folderName +:+ dq
                            +:+ ". What would you like to do?")
                     ["Open in Finder"; "Navigate Inside"; "Go Back"; "Exit"] in
        if String.eqb folderAction "Open in Finder" then
          ([ask; OpenFolderInFinder newPath], None)
        else if String.eqb folderAction "Navigate Inside" then
          ([ask], Some (NavTo newPath folderName))
        else if String.eqb folderAction "Exit" then ([ask; Exiting], None)
        else ([ask], Some (NavTo currentPath currentFolder))
      else ([], None) in
    match ret1 with
    | Some r => ((asked ++ ev1)%list, r)
    | None =>
        if startsWith selection "📝" then
          let noteName := js_replace selection "📝 " "" in
          let notePath := join_str currentPath noteName in
          let ask := AskList ("You selected note " +:+ dq +:+ noteName +:+ dq
                              +:+ ". What would you like to do?")
                       ["Open in Text Editor"; "Go Back"; "Exit"] in
          if String.eqb noteAction "Open in Text Editor" then
            ((asked ++ ev1 ++ [ask; OpenNoteInEditor notePath])%list, NavReturn)
          else if String.eqb noteAction "Exit" then
            ((asked ++ ev1 ++ [ask; Exiting])%list, NavReturn)
          else ((asked ++ ev1 ++ [ask])%list, NavTo currentPath currentFolder)
        else ((asked ++ ev1)%list, NavReturn)
    end.

(** A navigation session: [navigateFolders] followed through its
    [return navigateFolders(...)] calls, with one triple of answers per
    call and the directory listings given by [listing]. When the answers
    run out, the session is waiting in [NavTo p label]. *)
Fixpoint nav_session (cwd p : path) (label : string) (listing : path -> list dirent)
    (answers : list (string * string * string)) : list nav_event * nav_next :=
  match answers with
  | [] => ([], NavTo p label)
  | (sel, fa, na) :: rest =>
      let '(ev, nx) := navigateFolders cwd p label (listing p) sel fa na in
      match nx with
      | NavTo p' label' =>
          let '(ev', nx') := nav_session cwd p' label' listing rest in
          ((ev ++ ev')%list, nx')
      | _ => (ev, nx)
      end
  end.

(* ------------------------------------------------------------------ *)
(** ** The file system (Node's fs) *)

(** A file system: every entry below "/" by its path, a directory or a
    file with its contents; "/" itself is a directory. *)
Inductive node :=
  | DirN
  | FileN (data : string).

Global Instance node_eq_dec : EqDecision node.
Proof. solve_decision. Defined.

Abbreviation fsys := (gmap path node).

Definition is_dir (f : fsys) (p : path) : bool :=
  match p with
  | [] => true
  | _ => bool_decide (f !! p = Some DirN)
  end.

(** [fs.existsSync(p)] *)
Definition existsSync (f : fsys) (p : path) : bool :=
  match p with
  | [] => true
  | _ => bool_decide (is_Some (f !! p))
  end.

(** Every entry lies in a directory that exists. *)
Definition wf_fs (f : fsys) : bool :=
  forallb (fun kv => bool_decide (kv.1 <> []) && is_dir f (dirname kv.1))
    (map_to_list f).

(** The message of a Node system error. *)
Definition sys_error (code descr syscall : string) (p : path) : string :=
  code +:+ ": " +:+ descr +:+ ", " +:+ syscall +:+ " '" +:+ path_str p +:+ "'".

Definition parent_error (f : fsys) (syscall : string) (p : path) : string :=
  if existsSync f (dirname p)
  then sys_error "ENOTDIR" "not a directory" syscall p
  else sys_error "ENOENT" "no such file or directory" syscall p.

(** [fs.mkdirSync(p)] *)
Definition mkdirSync (f : fsys) (p : path) : result fsys :=
  if existsSync f p then Err (sys_error "EEXIST" "file already exists" "mkdir" p)
  else if is_dir f (dirname p) then Ok (<[p := DirN]> f)
  else Err (parent_error f "mkdir" p).

(** [fs.writeFileSync(p, data)] *)
Definition writeFileSync (f : fsys) (p : path) (data : string) : result fsys :=
  if is_dir f p && existsSync f p
  then Err (sys_error "EISDIR" "illegal operation on a directory" "open" p)
  else if is_dir f (dirname p) then Ok (<[p := FileN data]> f)
  else Err (parent_error f "open" p).


(** [fs.rmSync(p, { recursive: true, force: true })]: [p] and everything
    below it go; a missing [p] is no error. *)
Definition rmSync_rf (f : fsys) (p : path) : result fsys :=
  Ok (filter (fun kv => ~ (p `prefix_of` kv.1)) f).

(** [fs.rmSync(p)]: a file only. *)
Definition rmSync (f : fsys) (p : path) : result fsys :=
  if negb (existsSync f p)
  then Err (sys_error "ENOENT" "no such file or directory" "lstat" p)
  else if is_dir f p
  then Err ("Path is a directory: rm returned EISDIR (is a directory) " +:+ path_str p)
  else Ok (delete p f).

(** isParent.js and validations.js, lines 5-7:
    [fs.existsSync(path.join(dir, '.notedconfig'))] *)
Definition isMainNotedRepo (f : fsys) (dir : path) : bool :=
  existsSync f (join dir ".notedconfig").

(* ------------------------------------------------------------------ *)
(** ** The folder and note commands (src/unnamed/part_001, part_002)

    A command runs with the file system and the version-control engine as
    its state; the engine answers the [simpleGit] calls of the commit
    helper (src/functions/commitHelper.js, [Helper.commitChanges]) and the
    file operations act on the file system. *)

Section Commands.
Context {gstate : Type}.
Variable grun : gcall -> gstate -> result string * gstate.

Definition cstate : Type := fsys * gstate.

(** The engine answers a call from its own part of the state. *)
Definition crun (c : gcall) (s : cstate) : result string * cstate :=
  let '(r, g') := grun c s.2 in (r, (s.1, g')).

Local Abbreviation CM := (M cstate).

(** [fs.existsSync(p)] inside the command. *)
Definition fs_exists (p : path) : CM bool :=
  fun s => (Ok (existsSync (st_eng s).1 p), s).

(** A synchronous [fs] call that may throw. *)
Definition fs_call (op : fsys -> result fsys) : CM unit :=
  fun s => match op (st_eng s).1 with
           | Ok f' => (Ok tt, mkSt (f', (st_eng s).2) (st_trace s) (st_out s))
           | Err e => (Err e, s)
           end.

(** part_001, lines 36-51: from [fs.mkdirSync] on. *)
Definition folder_add_create (currentDir : path) (finalFolderName : string)
    (untracked : bool) : CM unit :=
  let folderPath := join_str currentDir finalFolderName in
  fs_call (fun f => mkdirSync f folderPath) ;;;
  log ("✔ Added folder: " +:+ finalFolderName) ;;;
  let gitkeepPath := join folderPath ".gitkeep" in
  fs_call (fun f => writeFileSync f gitkeepPath "") ;;;
  log ("✔ Created .gitkeep file in folder: " +:+ finalFolderName) ;;;
  if negb untracked
  then Helper.commitChanges crun currentDir ("Add folder: " +:+ finalFolderName)
  else log ("✔ Folder added without tracking: " +:+ finalFolderName).

(** part_001, lines 15-56, [folder add [name]], run in [currentDir]
    ([process.cwd()]); [folderName] is [None] when no name is given and
    [untracked] is [options.untracked]. The main-repository check and the
    name loop only read the file system and throw nothing; [fuel] bounds
    the loop, [None] meaning it ran out. *)
Definition foldersCommand_add (fuel : nat) (currentDir : path)
    (folderName : option string) (untracked : bool) (s : @st cstate)
    : option (result unit * st) :=
  let f := (st_eng s).1 in
  if isMainNotedRepo f currentDir then
    Some (log_error "✖ Error: Folders cannot be created in the main Noted repository." s)
  else
    let folderName := default "untitled-folder" folderName in
    let baseFolderName := if String.eqb folderName "" then "untitled-folder" else folderName in
    match nameLoop fuel (fun n => existsSync f (join_str currentDir n))
            baseFolderName baseFolderName 1 with
    | None => None
    | Some finalFolderName =>
        Some (mcatch (folder_add_create currentDir finalFolderName untracked)
                (fun e => log_error ("✖ Error adding folder: " +:+ e)) s)
    end.

(** part_001, lines 62-82, [folder delete <name>]. *)
Definition foldersCommand_delete (parentRepoPath : path) (folderName : string)
    : CM unit :=
  mcatch
    (let folderPath := join_str parentRepoPath folderName in
     b <- fs_exists folderPath ;;
     if negb b then
       log_error ("✖ Error: Folder '" +:+ folderName +:+ "' does not exist.")
     else
       fs_call (fun f => rmSync_rf f folderPath) ;;;
       log ("✔ Deleted folder: " +:+ folderName) ;;;
       Helper.commitChanges crun parentRepoPath ("Delete folder: " +:+ folderName))
    (fun e => log_error ("✖ Error deleting folder: " +:+ e)).

(** part_002, lines 38-47: from [fs.writeFileSync] on. *)
Definition note_add_create (currentDir : path) (finalNoteName : string)
    (untracked : bool) : CM unit :=
  let notePath := join_str currentDir (finalNoteName +:+ ".md") in
  fs_call (fun f => writeFileSync f notePath ("# " +:+ finalNoteName +:+ newline)) ;;;
  log ("✔ Created note: " +:+ finalNoteName +:+ " in the current workspace") ;;;
  if negb untracked
  then Helper.commitChanges crun currentDir ("Add note: " +:+ finalNoteName)
  else log ("✔ Created untracked note: " +:+ finalNoteName).

(** part_002, lines 16-52, [note add [note]]; [noteName] is [None] when
    no name is given (the default parameter applies to [undefined] only). *)
Definition noteCommand_add (fuel : nat) (currentDir : path)
    (noteName : option string) (untracked : bool) (s : @st cstate)
    : option (result unit * st) :=
  let f := (st_eng s).1 in
  if isMainNotedRepo f currentDir then
    Some (log_error "✖ Error: Notes cannot be created in the main Noted repository." s)
  else
    let baseNoteName := default "untitled-note" noteName in
    match nameLoop fuel (fun n => existsSync f (join_str currentDir (n +:+ ".md")))
            baseNoteName baseNoteName 1 with
    | None => None
    | Some finalNoteName =>
        Some (mcatch (note_add_create currentDir finalNoteName untracked)
                (fun e => log_error ("✖ Error adding note: " +:+ e)) s)
    end.

(** part_002, lines 58-84, [note delete <note>]. *)
Definition noteCommand_delete (currentDir : path) (noteName : string) : CM unit :=
  mcatch
    (let notePath := if negb (endsWith noteName ".md")
                     then join_str currentDir (noteName +:+ ".md")
                     else join_str currentDir noteName in
     b <- fs_exists notePath ;;
     if negb b then
       log_error ("✖ Error: Note '" +:+ noteName +:+ "' does not exist.")
     else
       fs_call (fun f => rmSync f notePath) ;;;
       log ("✔ Deleted note: " +:+ js_replace noteName ".md" "") ;;;
       Helper.commitChanges crun currentDir ("Delete note: " +:+ noteName))
    (fun e => log_error ("✖ Error deleting note: " +:+ e)).
End Commands.

(* ------------------------------------------------------------------ *)
(** ** Reading .gitmodules (getSubmodules, part_006 lines 95-125 and
    part_005 lines 18-48) *)












(* ------------------------------------------------------------------ *)
(** ** Listing the workspaces (part_007, lines 341-377) *)

(** What [workspace list] prints for the output [submodules] of
    [git submodule status]; [a] is the [-a] option. *)
Definition workspaceCommand_list (submodules : string) (a : bool) : list line :=
  if Nat.eqb (String.length (trim submodules)) 0 then
    [LogLine "No workspaces (submodules) found."]
  else
    LogLine "Workspaces (Submodules):" ::
    flat_map (fun ln =>
                if String.eqb (trim ln) "" then []
                else
                  let parts := split_char " " ln in
                  let workspaceName := nth_error parts 2 in
                  [LogLine (if a then trim ln else js_show workspaceName)])
      (split_char (ascii_of_nat 10) submodules).

(** A line of [git submodule status]: the state character (" " when
    checked out at the recorded commit, "+" when at another commit, "-"
    when not initialised, "U" on merge conflicts), the commit, the path
    and, when git can describe the commit, the description in
    parentheses. *)
Definition status_line (state : ascii) (sha p : string) (desc : option string) : string :=
  String state (sha +:+ " " +:+ p +:+
                match desc with Some d => " (" +:+ d +:+ ")" | None => "" end) +:+ newline.

(** A name [fs.readdirSync] can return: not empty, not "." or "..", and
    without "/". *)
Definition entry_name (c : string) : bool :=
  negb (String.eqb c "") && negb (String.eqb c ".") && negb (String.eqb c "..")
  && no_slash c.

(** [fs.readdirSync(p, { withFileTypes: true })]: the entries directly
    below [p], in the order of the map (Node gives them in the order of the
    operating system). *)
Definition readdirSync (f : fsys) (p : path) : result (list dirent) :=
  if negb (existsSync f p)
  then Err (sys_error "ENOENT" "no such file or directory" "scandir" p)
  else if negb (is_dir f p)
  then Err (sys_error "ENOTDIR" "not a directory" "scandir" p)
  else Ok (omap (fun kv : path * node =>
                   if bool_decide (kv.1 <> [] /\ dirname kv.1 = p)
                   then Some (mkDirent (List.last kv.1 "") (bool_decide (kv.2 = DirN))
                                       (negb (bool_decide (kv.2 = DirN))))
                   else None) (map_to_list f)).

(** part_001, lines 84-109, [folder list], run in [parentRepoPath]. *)
Definition foldersCommand_list (f : fsys) (parentRepoPath : path) : list line :=
  match readdirSync f parentRepoPath with
  | Err e => [ErrorLine ("✖ Error listing folders: " +:+ e)]
  | Ok items =>
      let folders := filter (fun item => dirent_isDirectory item
                                         && negb (startsWith (dirent_name item) ".")) items in
      match folders with
      | [] => [LogLine "No folders found."]
      | _ => map (fun folder => LogLine (dirent_name folder)) folders
      end
  end.

(** part_002, lines 85-109, [note list], run in [currentDir]. *)
Definition noteCommand_list (f : fsys) (currentDir : path) : list line :=
  match readdirSync f currentDir with
  | Err e => [ErrorLine ("✖ Error listing notes: " +:+ e)]
  | Ok items =>
      let notes := filter (fun item => dirent_isFile item
                                       && endsWith (dirent_name item) ".md") items in
      match notes with
      | [] => [LogLine "No notes found in the current workspace."]
      | _ => map (fun note => LogLine (js_replace (dirent_name note) ".md" "")) notes
      end
  end.


(** ** Sample inputs *)

Definition demo_fs : fsys :=
  {[ ["ws"] := DirN; ["ws"; "a"] := DirN; ["ws"; "a"; ".gitkeep"] := FileN "";
     ["ws"; "n.md"] := FileN "# n" ]}.

Definition demo_exists (q : path) : bool :=
  bool_decide (q = ["home"; "Noted"; ".notedconfig"]) || bool_decide (q = ["home"; "Noted"; "ws"; ".git"]).

Definition demo_entries : list dirent :=
  [mkDirent "docs" true false; mkDirent ".git" true false; mkDirent "n.md" false true].



Definition demo_status : list (ascii * string * string * option string) :=
  [(" "%char, "1a2b", "ws", Some "heads/main"); ("-"%char, "3c4d", "lib", None)].


(* ================================================================== *)
(** * Proofs *)

Section NameLoopFacts.
Variable existing : list string.
Variable baseName : string.
Let ex := fun n => bool_decide (n ∈ existing).

Lemma string_length_app (s t : string) :
  String.length (s +:+ t) = String.length s + String.length t.
Proof. induction s; simpl; auto. Qed.

Lemma string_app_cancel_l (s t u : string) : s +:+ t = s +:+ u -> t = u.
Proof. induction s; simpl; [auto | intros H; injection H; auto]. Qed.

Lemma candidate_inj (i j : nat) : candidate baseName i = candidate baseName j -> i = j.
Proof.
  destruct i, j; simpl; intros H; auto.
  - apply (f_equal String.length) in H.
    rewrite !string_length_app in H. simpl in H. lia.
  - apply (f_equal String.length) in H.
    rewrite !string_length_app in H. simpl in H. lia.
  - apply string_app_cancel_l in H. injection H as H.
    apply (inj num_str) in H. lia.
Qed.

Lemma candidate_S (k : nat) :
  candidate baseName (S k) = baseName +:+ "-" +:+ num_str (S k).
Proof. reflexivity. Qed.

(** The loop, entered with the k-th candidate, returns the first free
    candidate at or after k, provided one lies within the fuel. *)
Lemma nameLoop_first_free (fuel k m : nat) :
  k <= m -> m < k + fuel -> ex (candidate baseName m) = false ->
  exists m', nameLoop fuel ex baseName (candidate baseName k) (S k)
               = Some (candidate baseName m')
          /\ k <= m' /\ ex (candidate baseName m') = false
          /\ (forall j, k <= j < m' -> ex (candidate baseName j) = true).
Proof.
  revert k. induction fuel as [|fuel IH]; intros k Hkm Hfuel Hm; [lia|].
  simpl. destruct (ex (candidate baseName k)) eqn:Hk.
  - assert (k <> m) by (intros ->; congruence).
    rewrite <- candidate_S.
    destruct (IH (S k)) as (m' & Hr & Hle & Hfree & Hmin); [lia|lia|done|].
    exists m'. split; [done|]. split; [lia|]. split; [done|].
    intros j Hj. destruct (decide (j = k)) as [->|]; [done|]. apply Hmin. lia.
  - exists k. split; [done|]. split; [lia|]. split; [done|]. intros j Hj; lia.
Qed.

(** Pigeonhole: the candidates 0..n are pairwise distinct, so they
    cannot all be taken when n reaches the number of existing names. *)
Lemma some_candidate_free :
  exists m, m <= length existing /\ ex (candidate baseName m) = false.
Proof.
  set (n := length existing).
  destruct (forallb (fun j => ex (candidate baseName j)) (seq 0 (S n))) eqn:Hall.
  - exfalso.
    assert (Hinc : incl (map (candidate baseName) (seq 0 (S n))) existing).
    { intros x Hx. apply in_map_iff in Hx as (j & <- & Hj).
      apply forallb_forall with (x := j) in Hall; [|done].
      unfold ex in Hall. apply bool_decide_eq_true in Hall.
      by apply list_elem_of_In. }
    apply List.NoDup_incl_length in Hinc.
    + rewrite length_map, length_seq in Hinc. unfold n in Hinc. lia.
    + apply Finite.Injective_map_NoDup; [|apply List.seq_NoDup].
      intros i j; apply candidate_inj.
  - destruct (List.find (fun j => negb (ex (candidate baseName j))) (seq 0 (S n)))
      as [j|] eqn:Hf.
    + apply List.find_some in Hf as [Hj Hneg]. apply in_seq in Hj.
      exists j. split; [unfold n in *; lia|]. by apply negb_true_iff.
    + exfalso. apply Bool.not_true_iff_false in Hall. apply Hall.
      apply forallb_forall. intros j Hj.
      pose proof (List.find_none _ _ Hf j Hj) as Hn. by apply negb_false_iff.
Qed.
End NameLoopFacts.

(** C9. The name-collision loop returns the base name when it is free and
    otherwise [baseName-k] for the least k >= 1 whose name is free; the
    returned name is never taken. It terminates: one iteration more than
    the number of existing names always suffices. *)
Theorem nextName_least_free (existing : list string) (baseName : string)
    (fuel : nat) (Hfuel : length existing < fuel) :
  exists k, nextName fuel existing baseName = Some (candidate baseName k)
         /\ (candidate baseName k ∉ existing)
         /\ (forall j, j < k -> candidate baseName j ∈ existing).
Proof.
  destruct (some_candidate_free existing baseName) as (m & Hm & Hfree).
  destruct (nameLoop_first_free existing baseName fuel 0 m)
    as (k & Hr & _ & Hk & Hmin); [lia|lia|done|].
  exists k. split; [exact Hr|]. split.
  - intros Hin. apply (bool_decide_eq_true_2 (_ ∈ existing)) in Hin.
    simpl in Hk. congruence.
  - intros j Hj. specialize (Hmin j ltac:(lia)).
    by apply bool_decide_eq_true in Hmin.
Qed.

Lemma nextName_least_free_witness :
  length ["note"; "note-1"; "note-3"] < 4 /\
  exists k, nextName 4 ["note"; "note-1"; "note-3"] "note" = Some (candidate "note" k)
         /\ (candidate "note" k ∉ ["note"; "note-1"; "note-3"])
         /\ (forall j, j < k -> candidate "note" j ∈ ["note"; "note-1"; "note-3"]).
Proof. split; [simpl; lia | apply nextName_least_free; simpl; lia]. Defined.

(** ** Repository locators *)

Lemma dirname_prefix (p : path) : dirname p `prefix_of` p.
Proof.
  destruct p as [|c p']; [done|]. unfold dirname.
  exists [List.last (c :: p') c]. apply List.app_removelast_last. done.
Qed.

Lemma dirname_length (p : path) : p <> [] -> length (dirname p) < length p.
Proof.
  intros Hp. destruct p as [|c p']; [done|]. unfold dirname.
  assert (E : c :: p' = (removelast (c :: p') ++ [List.last (c :: p') c])%list) by (apply List.app_removelast_last; done).
  set (r := removelast (c :: p')) in *.
  apply (f_equal (@List.length string)) in E. rewrite length_app in E. simpl in E.
  change (List.length (c :: p')) with (S (List.length p')). lia.
Qed.

(** C8. When no ancestor of the start path (itself included) holds a
    [.git] entry, both locators stop once "/" is reached and return
    [null]; one iteration per component, plus one, suffices. *)
Theorem locators_terminate_not_found (fs_exists : path -> bool) (p : path)
    (fuel : nat) (Hfuel : length p < fuel)
    (Hnone : forall a, a `prefix_of` p -> fs_exists (join a ".git") = false) :
  findWorkspaceRoot fuel fs_exists p = Some None
  /\ getWorkspaceRoot fuel fs_exists p = Some None.
Proof.
  revert p Hfuel Hnone. induction fuel as [|fuel IH]; intros p Hfuel Hnone; [lia|].
  simpl. rewrite (Hnone p) by done.
  destruct (decide (p = [])) as [->|Hp].
  - split; [done|]. rewrite bool_decide_false by tauto. done.
  - assert (Hlt := dirname_length p Hp).
    assert (Hne : dirname p <> p) by (intros E; rewrite E in Hlt; lia).
    rewrite bool_decide_false by done. rewrite bool_decide_true by done.
    apply IH; [lia|]. intros a Ha. apply Hnone.
    transitivity (dirname p); [done|apply dirname_prefix].
Qed.

Lemma locators_terminate_not_found_witness :
  length ["tmp"; "scratch"; "notes"] < 4 /\
  (forall a, a `prefix_of` ["tmp"; "scratch"; "notes"] ->
     (fun q => bool_decide (q = ["home"; ".git"])) (join a ".git") = false) /\
  findWorkspaceRoot 4 (fun q => bool_decide (q = ["home"; ".git"])) ["tmp"; "scratch"; "notes"]
    = Some None /\
  getWorkspaceRoot 4 (fun q => bool_decide (q = ["home"; ".git"])) ["tmp"; "scratch"; "notes"]
    = Some None.
Proof.
  assert (H : forall a, a `prefix_of` ["tmp"; "scratch"; "notes"] ->
     (fun q => bool_decide (q = ["home"; ".git"])) (join a ".git") = false).
  { intros a [k Hk]. apply bool_decide_false. unfold join. intros E.
    destruct a as [|x a]; simpl in E; [discriminate|].
    injection E as -> E. simpl in Hk. discriminate. }
  split; [simpl; lia|]. split; [exact H|].
  apply locators_terminate_not_found; [simpl; lia|exact H].
Defined.

(** ** Runs of the helpers against any engine *)

Section AnyEngine.
Context {estate : Type}.
Variable erun : gcall -> estate -> result string * estate.

(** Symbolic execution: split on every answer of the engine and on
    every test of the code. *)
Ltac run_cases :=
  repeat (unfold bind, mcatch, git, log, log_error, ret, isSubmodule in *; simpl in *;
          match goal with
          | |- context [erun ?c ?e] =>
              let E := fresh "E" in destruct (erun c e) as [[?|?] ?] eqn:E
          | |- context [if ?b then _ else _] =>
              lazymatch b with context [drop _ _] => fail | _ => idtac end;
              let E := fresh "B" in destruct b eqn:E
          | |- context [match ?x with Some _ => _ | None => _ end] =>
              lazymatch x with context [drop _ _] => fail | _ => idtac end;
              let E := fresh "O" in destruct x eqn:E
          end).

Ltac calls_simpl :=
  cbn; rewrite <- ?app_assoc, drop_app_length; simpl;
  repeat match goal with
         | H : ?b = true |- context [if ?b then _ else _] => rewrite H
         | H : ?b = false |- context [if ?b then _ else _] => rewrite H
         end; simpl.


Lemma mcatch_handler_ok (m : M estate unit) (f : string -> string) (s : st) :
  fst (mcatch m (fun e => log_error (f e)) s) = Ok tt.
Proof. unfold mcatch. destruct (m s) as [[[]|e] s']; reflexivity. Qed.

Lemma mcatch_handler_err (m : M estate unit) (f : string -> string) (s s' : st) e :
  m s = (Err e, s') ->
  snd (mcatch m (fun e => log_error (f e)) s)
    = mkSt (st_eng s') (st_trace s') (st_out s' ++ [ErrorLine (f e)]).
Proof. unfold mcatch. intros ->. reflexivity. Qed.

Lemma commitChanges_superproject_calls (s : st) (p : path) (m b : string) :
  match after_super_query (new_calls s (snd (commitChanges erun p m b s))) with
  | Some (d, r, rest) =>
      match reported r with
      | Some sp =>
          rest = [Add (parse_path sp) ("./" +:+ basename d)]
          \/ rest = [Add (parse_path sp) ("./" +:+ basename d);
                     Commit (parse_path sp)
                       ("Update submodule: " +:+ dq +:+ basename d +:+ dq +:+ " - " +:+ m)]
      | None => rest = []
      end
  | None => True
  end.
Proof.
  unfold commitChanges, commitChanges_body, commitChanges_stage, new_calls. destruct s as [e tr out].
  run_cases; calls_simpl; auto.
Qed.

Lemma helper_superproject_calls (s : st) (p : path) (m : string) :
  match after_super_query (new_calls s (snd (Helper.commitChanges erun p m s))) with
  | Some (d, r, rest) =>
      match reported r with
      | Some sp =>
          rest = [Add (parse_path sp) sp]
          \/ rest = [Add (parse_path sp) sp;
                     Commit (parse_path sp)
                       ("Update submodule: " +:+ dq +:+ basename d +:+ dq
                        +:+ " to latest commit in workspace: " +:+ dq +:+ m +:+ dq)]
      | None => rest = []
      end
  | None => True
  end.
Proof.
  unfold Helper.commitChanges, Helper.commitChanges_body, new_calls.
  destruct s as [e tr out]. run_cases; calls_simpl; auto.
Qed.


(** C10. [commitChanges] (both helpers) always resolves with [undefined]:
    whatever the engine answers, no rejection reaches the caller; a
    failure of the body is caught and only printed. *)
Theorem commitChanges_resolves (s : st) (p : path) (m b : string) :
  fst (commitChanges erun p m b s) = Ok tt
  /\ fst (Helper.commitChanges erun p m s) = Ok tt
  /\ (forall e s', commitChanges_body erun p m b s = (Err e, s') ->
        snd (commitChanges erun p m b s)
        = mkSt (st_eng s') (st_trace s')
            (st_out s' ++ [ErrorLine ("✖ Error committing changes: " +:+ e)]))
  /\ (forall e s', Helper.commitChanges_body erun p m s = (Err e, s') ->
        snd (Helper.commitChanges erun p m s)
        = mkSt (st_eng s') (st_trace s')
            (st_out s' ++ [ErrorLine ("✖ Error committing changes: " +:+ e)])).
Proof.
  split; [apply mcatch_handler_ok|]. split; [apply mcatch_handler_ok|].
  split; intros e s' H; eapply mcatch_handler_err; exact H.
Qed.

(** C6. One call commits in at most two repositories, and asks for a
    superproject once at most, about the target's own root (the path
    [revparse --show-toplevel] printed): the superproject is never asked
    for a superproject of its own. The older helper asks about its
    argument only. *)
Theorem propagation_one_level (s : st) (p : path) (m b : string) :
  (let calls := new_calls s (snd (commitChanges erun p m b s)) in
   length (List.filter is_commit (map fst calls)) <= 2
   /\ (super_queries calls = []
       \/ exists root_s, calls !! 0 = Some (RevparseTop p, Ok root_s)
                      /\ super_queries calls = [parse_path root_s]))
  /\ (let calls := new_calls s (snd (Helper.commitChanges erun p m s)) in
      length (List.filter is_commit (map fst calls)) <= 2
      /\ (super_queries calls = [] \/ super_queries calls = [p])).
Proof.
  split.
  - unfold commitChanges, commitChanges_body, commitChanges_stage, new_calls. destruct s as [e tr out].
    run_cases; calls_simpl; (split; [lia|]); eauto.
  - unfold Helper.commitChanges, Helper.commitChanges_body, new_calls.
    destruct s as [e tr out].
    run_cases; calls_simpl; (split; [lia|]); eauto.
Qed.


End AnyEngine.

Section PathFacts.

Lemma sapp_nil_l (t : string) : "" +:+ t = t.
Proof. reflexivity. Qed.

Lemma sapp_cons (a : ascii) (s t : string) : String a s +:+ t = String a (s +:+ t).
Proof. reflexivity. Qed.

Lemma sapp_nil_r (s : string) : s +:+ "" = s.
Proof. induction s; [reflexivity | rewrite !sapp_cons; congruence]. Qed.

Lemma sapp_assoc (s t u : string) : s +:+ (t +:+ u) = (s +:+ t) +:+ u.
Proof. induction s; [reflexivity | rewrite !sapp_cons; congruence]. Qed.

Lemma str_forallb_app f (s t : string) :
  str_forallb f (s +:+ t) = str_forallb f s && str_forallb f t.
Proof. induction s; [done|]. rewrite sapp_cons; simpl. rewrite IHs. by destruct (f a). Qed.










Lemma split_slash_nonnil (s : string) : split_slash s <> [].
Proof.
  induction s as [|a s IH]; simpl; [done|].
  case_bool_decide; [done|]. destruct (split_slash s); done.
Qed.


Lemma split_slash_app (c s : string) :
  no_slash c = true ->
  split_slash (c +:+ s) = match split_slash s with
                          | [] => [c]
                          | x :: xs => (c +:+ x) :: xs
                          end.
Proof.
  unfold no_slash. induction c as [|a c IH]; intros H.
  - rewrite sapp_nil_l. pose proof (split_slash_nonnil s). by destruct (split_slash s).
  - simpl in H. apply andb_true_iff in H as [Ha Hc].
    apply negb_true_iff, bool_decide_eq_false in Ha.
    rewrite sapp_cons. simpl. rewrite bool_decide_false by done.
    rewrite IH by done. pose proof (split_slash_nonnil s). by destruct (split_slash s).
Qed.








End PathFacts.

Section WorldFacts.


















Section At.
Variables (W : world) (d R : path) (r : repo).
Hypothesis Htop : toplevel W d = Some R.
Hypothesis HR : W !! R = Some r.







End At.








End WorldFacts.

(** ** A second run of the propagator *)


Section Idempotence.













End Idempotence.

(** ** The staging step, and the pathspec it uses *)

Section Staging.








End Staging.


(** ** Idempotence of the propagator *)









(* ------------------------------------------------------------------ *)
(** ** Runs on the concrete situations *)






(** C2: called on the workspace, the helper of commitHelper.js stages and
    commits the unrelated README edit of the parent repository; the
    helper of part_009, on the same world, leaves it unstaged. *)
Theorem helper_stages_whole_superproject :
  (st_eng (snd helper_call) !! noted ≫= fun r => index r !! ["README.md"])
    = Some (Blob "r2") /\
  (st_eng (snd helper_call) !! noted ≫= fun r => head_tree r !! ["README.md"])
    = Some (Blob "r2") /\
  (Add noted "/home/u/Noted", Ok "") ∈ st_trace (snd helper_call) /\
  (st_eng (snd propagator_call) !! noted ≫= fun r => index r !! ["README.md"])
    = Some (Blob "r").
Proof.
  split; [vm_compute; reflexivity |].
  split; [vm_compute; reflexivity |].
  split; [vm_compute; do 3 right; left | vm_compute; reflexivity].
Qed.

(* ------------------------------------------------------------------ *)
(** ** Proofs about the commands *)

Section NavFacts.

Lemma prefix_dirname (a p : path) : a `prefix_of` p -> a <> p -> a `prefix_of` dirname p.
Proof.
  intros [k ->] Hne. destruct k as [|y k' _] using rev_ind.
  { rewrite app_nil_r in Hne. done. }
  destruct (a ++ k' ++ [y])%list eqn:E.
  { apply app_eq_nil in E as [_ E]. apply app_eq_nil in E as [_ E]. done. }
  unfold dirname. rewrite <- E. rewrite app_assoc, removelast_last.
  by exists k'.
Qed.

Lemma dirname_length_eq (p : path) : length (dirname p) = length p - 1.
Proof.
  destruct p as [|c p']; [done|]. unfold dirname.
  rewrite removelast_firstn_len. rewrite length_firstn. simpl. lia.
Qed.

Lemma dirname_take (p : path) : dirname p = take (length p - 1) p.
Proof.
  destruct p as [|c p']; [done|]. unfold dirname.
  rewrite removelast_firstn_len. f_equal. simpl. lia.
Qed.

(** X1. [getNotedRepoRoot] (nav.js) returns the deepest ancestor of the start path, other than "/", that holds a [.notedconfig] entry, and [null] when there is none; it never runs out of fuel when the fuel exceeds the path length. *)
Theorem getNotedRepoRoot_deepest (fs_exists : path -> bool) (p : path) (fuel : nat)
    (Hfuel : length p < fuel) :
  match getNotedRepoRoot fuel fs_exists p with
  | Some (Some d) =>
      d <> [] /\ d `prefix_of` p /\ fs_exists (join d ".notedconfig") = true /\
      (forall a, a `prefix_of` p -> length d < length a ->
                 fs_exists (join a ".notedconfig") = false)
  | Some None =>
      forall a, a `prefix_of` p -> a <> [] -> fs_exists (join a ".notedconfig") = false
  | None => False
  end.
Proof.
  revert p Hfuel. induction fuel as [|fuel IH]; intros p Hfuel; [lia|].
  simpl. destruct (decide (p = [])) as [->|Hp].
  - rewrite bool_decide_false by tauto. intros a Ha Hne.
    apply prefix_nil_inv in Ha. congruence.
  - rewrite bool_decide_true by done.
    destruct (fs_exists (join p ".notedconfig")) eqn:Hm.
    + split; [done|]. split; [done|]. split; [done|].
      intros a Ha Hlt. apply prefix_length in Ha. lia.
    + assert (Hlt := dirname_length p Hp).
      specialize (IH (dirname p) ltac:(lia)).
      destruct (getNotedRepoRoot fuel fs_exists (dirname p)) as [[d|]|]; [| |done].
      * destruct IH as (Hd & Hpre & Hmd & Hdeep).
        split; [done|]. split; [by transitivity (dirname p); [|apply dirname_prefix]|].
        split; [done|]. intros a Ha Hlen.
        destruct (decide (a = p)) as [->|Hap]; [done|].
        apply Hdeep; [by apply prefix_dirname|done].
      * intros a Ha Hne. destruct (decide (a = p)) as [->|Hap]; [done|].
        apply IH; [by apply prefix_dirname|done].
Qed.

(** X2. [findWorkspaceRoot] (part_006) and [getWorkspaceRoot] (nav.js) give the same answer, except when no ancestor below "/" holds [.git]: then [findWorkspaceRoot] still looks at "/" itself. *)
Theorem locators_differ_only_at_root (fs_exists : path -> bool) (p : path) (fuel : nat)
    (Hfuel : length p < fuel) :
  findWorkspaceRoot fuel fs_exists p =
  match getWorkspaceRoot fuel fs_exists p with
  | Some None => Some (if fs_exists (join [] ".git") then Some [] else None)
  | r => r
  end.
Proof.
  revert p Hfuel. induction fuel as [|fuel IH]; intros p Hfuel; [lia|].
  simpl. destruct (decide (p = [])) as [->|Hp].
  - rewrite (bool_decide_false (_ <> _)) by tauto.
    destruct (fs_exists (join [] ".git")); [done|].
    rewrite bool_decide_true by done. done.
  - rewrite (bool_decide_true (_ <> _)) by done.
    destruct (fs_exists (join p ".git")); [done|].
    assert (Hlt := dirname_length p Hp).
    rewrite bool_decide_false by (intros E; rewrite E in Hlt; lia).
    apply IH. lia.
Qed.

End NavFacts.

Section JsStrings.

Lemma prefix_app_self (s t : string) : String.prefix s (s +:+ t) = true.
Proof.
  induction s as [|a s IH]; [rewrite sapp_nil_l; by destruct t|]. rewrite sapp_cons. simpl.
  destruct (ascii_dec a a); [done|congruence].
Qed.

Lemma substring_0_length (t : string) : String.substring 0 (String.length t) t = t.
Proof. induction t as [|a t IH]; [done|]. simpl. by rewrite IH. Qed.

Lemma substring_app (s t : string) :
  String.substring (String.length s) (String.length t) (s +:+ t) = t.
Proof.
  induction s as [|a s IH]; [apply substring_0_length|].
  rewrite sapp_cons. simpl. destruct (String.length t); exact IH.
Qed.

Lemma index_app_self (s t : string) :
  s <> "" -> String.index 0 s (s +:+ t) = Some 0.
Proof.
  intros Hs. destruct s as [|a s']; [done|].
  assert (E : forall b u, String.index 0 (String a s') (String b u) =
     if String.prefix (String a s') (String b u) then Some 0
     else match String.index 0 (String a s') u with Some n => Some (S n) | None => None end)
    by reflexivity.
  rewrite sapp_cons, E, <- sapp_cons. by rewrite prefix_app_self.
Qed.

Lemma js_replace_prefix (pre f : string) :
  pre <> "" -> js_replace (pre +:+ f) pre "" = f.
Proof.
  intros Hpre. unfold js_replace. rewrite index_app_self by done.
  rewrite string_length_app. simpl.
  replace (String.length pre + String.length f - String.length pre)
    with (String.length f) by lia.
  rewrite substring_app. destruct (pre +:+ f); reflexivity.
Qed.

Lemma entry_name_spec (c : string) :
  entry_name c = true -> c <> "" /\ c <> "." /\ c <> ".." /\ no_slash c = true.
Proof.
  unfold entry_name.
  intros [[[H1 H2]%andb_true_iff H3]%andb_true_iff H4]%andb_true_iff.
  apply negb_true_iff, String.eqb_neq in H1, H2, H3. auto.
Qed.

Lemma split_slash_single (c : string) : no_slash c = true -> split_slash c = [c].
Proof.
  intros H. rewrite <- (sapp_nil_r c) at 1. rewrite split_slash_app by done.
  simpl. by rewrite sapp_nil_r.
Qed.

Lemma join_str_entry (p : path) (c : string) :
  entry_name c = true -> join_str p c = (p ++ [c])%list.
Proof.
  intros (H1 & H2 & H3 & H4)%entry_name_spec. unfold join_str.
  rewrite split_slash_single by done. simpl.
  rewrite bool_decide_false by tauto. rewrite bool_decide_false by done.
  simpl. by rewrite rev_involutive.
Qed.

End JsStrings.

Section NavChoices.
Variables (cwd p : path) (label : string) (entries : list dirent).

Lemma navigateFolders_go_back (fa na : string) :
  snd (navigateFolders cwd p label entries "Go Back" fa na) =
  if bool_decide (p = cwd) then NavThrow "ReferenceError: navigateWorkspaces is not defined"
  else NavTo (dirname p) (basename (dirname p)).
Proof. unfold navigateFolders. simpl. by destruct (bool_decide (p = cwd)). Qed.

(** X3. Choosing a listed folder in [navigateFolders] shows the folder prompt and then opens it in Finder, navigates inside it, exits, or (for "Go Back" or any other answer) shows the same directory again. *)
Theorem navigateFolders_folder_choice (f fa na : string)
    (Hf : f ∈ getDirectories entries) (Hname : entry_name f = true) :
  exists asked,
    navigateFolders cwd p label entries ("📂 " +:+ f) fa na =
    (asked :: AskList ("You selected folder " +:+ dq +:+ f +:+ dq
                        +:+ ". What would you like to do?")
                ["Open in Finder"; "Navigate Inside"; "Go Back"; "Exit"]
           :: (if String.eqb fa "Open in Finder" then [OpenFolderInFinder (p ++ [f])%list]
               else if String.eqb fa "Exit" then [Exiting] else []),
     if String.eqb fa "Open in Finder" then NavReturn
     else if String.eqb fa "Navigate Inside" then NavTo (p ++ [f])%list f
     else if String.eqb fa "Exit" then NavReturn
     else NavTo p label).
Proof.
  eexists. unfold navigateFolders.
  replace (String.eqb ("📂 " +:+ f) "Go Back") with false by reflexivity.
  replace (String.eqb ("📂 " +:+ f) "Exit") with false by reflexivity.
  replace (startsWith ("📂 " +:+ f) "📂") with true by reflexivity.
  replace (startsWith ("📂 " +:+ f) "📝") with false by reflexivity.
  rewrite js_replace_prefix by done. rewrite join_str_entry by done.
  destruct (String.eqb fa "Open in Finder"); [reflexivity|].
  destruct (String.eqb fa "Navigate Inside") eqn:E;
    [apply String.eqb_eq in E; subst fa; reflexivity|].
  destruct (String.eqb fa "Exit"); reflexivity.
Qed.

(** X4. Choosing a listed note in [navigateFolders] shows the note prompt and then opens the note in the editor, exits, or shows the same directory again. *)
Theorem navigateFolders_note_choice (n fa na : string)
    (Hn : n ∈ getNotes entries) (Hname : entry_name n = true) :
  exists asked,
    navigateFolders cwd p label entries ("📝 " +:+ n) fa na =
    (asked :: AskList ("You selected note " +:+ dq +:+ n +:+ dq
                        +:+ ". What would you like to do?")
                ["Open in Text Editor"; "Go Back"; "Exit"]
           :: (if String.eqb na "Open in Text Editor" then [OpenNoteInEditor (p ++ [n])%list]
               else if String.eqb na "Exit" then [Exiting] else []),
     if String.eqb na "Open in Text Editor" then NavReturn
     else if String.eqb na "Exit" then NavReturn
     else NavTo p label).
Proof.
  eexists. unfold navigateFolders.
  replace (String.eqb ("📝 " +:+ n) "Go Back") with false by reflexivity.
  replace (String.eqb ("📝 " +:+ n) "Exit") with false by reflexivity.
  replace (startsWith ("📝 " +:+ n) "📂") with false by reflexivity.
  replace (startsWith ("📝 " +:+ n) "📝") with true by reflexivity.
  rewrite js_replace_prefix by done. rewrite join_str_entry by done.
  destruct (String.eqb na "Open in Text Editor"); [reflexivity|].
  destruct (String.eqb na "Exit"); reflexivity.
Qed.
End NavChoices.

Lemma nav_session_cons (cwd p : path) (label : string) (listing : path -> list dirent)
    (sel fa na : string) (rest : list (string * string * string)) :
  nav_session cwd p label listing ((sel, fa, na) :: rest) =
  let '(ev, nx) := navigateFolders cwd p label (listing p) sel fa na in
  match nx with
  | NavTo p' label' =>
      let '(ev', nx') := nav_session cwd p' label' listing rest in ((ev ++ ev')%list, nx')
  | _ => (ev, nx)
  end.
Proof. reflexivity. Qed.

(** X5. Answering "Go Back" k+1 times in a row climbs k+1 directories, unless the climb reaches the starting directory, where the call of the undefined [navigateWorkspaces] throws a [ReferenceError]. *)
Theorem nav_go_back_chain (cwd p : path) (label : string) (listing : path -> list dirent)
    (fa na : string) (k : nat) :
  snd (nav_session cwd p label listing (replicate (S k) ("Go Back", fa, na))) =
  if bool_decide (cwd `prefix_of` p /\ length p - length cwd <= k)
  then NavThrow "ReferenceError: navigateWorkspaces is not defined"
  else NavTo (take (length p - S k) p) (basename (take (length p - S k) p)).
Proof.
  revert p label. induction k as [|k IH]; intros p label.
  - simpl. pose proof (navigateFolders_go_back cwd p label (listing p) fa na) as H.
    destruct (navigateFolders cwd p label (listing p) "Go Back" fa na) as [ev nx].
    simpl in H. subst nx.
    destruct (decide (p = cwd)) as [->|Hne].
    + rewrite !bool_decide_true by (first [done | split; [done|lia]]). done.
    + rewrite bool_decide_false by done.
      rewrite bool_decide_false.
      * simpl. replace (length p - 1) with (length p - 1) by lia. by rewrite <- dirname_take.
      * intros [Hpre Hlen]. apply Hne. symmetry.
        apply prefix_length_eq; [done|]. lia.
  - rewrite replicate_S, nav_session_cons.
    pose proof (navigateFolders_go_back cwd p label (listing p) fa na) as H.
    destruct (navigateFolders cwd p label (listing p) "Go Back" fa na) as [ev nx].
    simpl in H. subst nx.
    destruct (decide (p = cwd)) as [->|Hne].
    + rewrite !bool_decide_true by (first [done | split; [done|lia]]). done.
    + rewrite bool_decide_false by done.
      specialize (IH (dirname p) (basename (dirname p))).
      cbn -[nav_session replicate].
      destruct (nav_session cwd (dirname p) (basename (dirname p)) listing
                  (replicate (S k) ("Go Back", fa, na))) as [ev' nx'] eqn:E.
      simpl in IH |- *. rewrite IH. clear IH E.
      rewrite dirname_length_eq.
      assert (Hiff : cwd `prefix_of` p /\ length p - length cwd <= S k <->
                     cwd `prefix_of` dirname p /\ length p - 1 - length cwd <= k).
      { split.
        - intros [Hpre Hlen]. split; [by apply prefix_dirname|].
          lia.
        - intros [Hpre Hlen]. split; [|lia].
          transitivity (dirname p); [done|apply dirname_prefix]. }
      destruct (bool_decide (cwd `prefix_of` dirname p /\ _)) eqn:E1.
      * apply bool_decide_eq_true in E1. rewrite bool_decide_true by tauto. done.
      * apply bool_decide_eq_false in E1. rewrite bool_decide_false by tauto.
        rewrite dirname_take, take_take.
        replace ((length p - 1 - S k) `min` (length p - 1)) with (length p - S (S k)) by lia.
        done.
Qed.

Section CandidateNames.

Lemma string_app_cancel_r (s t u : string) : s +:+ u = t +:+ u -> s = t.
Proof.
  revert t. induction s as [|a s IH]; intros [|b t] H.
  - done.
  - apply (f_equal String.length) in H. rewrite sapp_nil_l, sapp_cons in H.
    simpl in H. rewrite string_length_app in H. lia.
  - apply (f_equal String.length) in H. rewrite sapp_nil_l, sapp_cons in H.
    simpl in H. rewrite string_length_app in H. lia.
  - rewrite !sapp_cons in H. injection H as -> H. f_equal. by apply IH.
Qed.

Lemma pretty_N_char_not_slash (x : N) : pretty_N_char x <> slash.
Proof. unfold pretty_N_char, slash. by repeat case_match. Qed.

Lemma no_slash_pretty_N_go (x : N) (s : string) :
  no_slash s = true -> no_slash (pretty_N_go x s) = true.
Proof.
  revert s. induction (N.lt_wf_0 x) as [x _ IH]; intros s Hs.
  assert (x = 0 \/ 0 < x)%N as [->|Hx] by lia; [by rewrite pretty_N_go_0|].
  rewrite pretty_N_go_step by done. apply IH; [by apply N.div_lt|].
  unfold no_slash. simpl. rewrite bool_decide_false by apply pretty_N_char_not_slash.
  exact Hs.
Qed.

Lemma no_slash_num_str (k : nat) : no_slash (num_str k) = true.
Proof.
  unfold num_str, pretty, pretty_nat. unfold pretty, pretty_N.
  cbv beta. destruct (decide (N.of_nat k = 0%N)); [done|]. by apply no_slash_pretty_N_go.
Qed.

Lemma no_slash_candidate (b : string) (k : nat) :
  no_slash b = true -> no_slash (candidate b k) = true.
Proof.
  intros Hb. destruct k; [done|]. unfold candidate, no_slash.
  rewrite !str_forallb_app. unfold no_slash in Hb. rewrite Hb.
  pose proof (no_slash_num_str (S k)) as Hn. unfold no_slash in Hn. by rewrite Hn.
Qed.

Lemma entry_name_candidate (b : string) (k : nat) :
  entry_name b = true -> entry_name (candidate b k) = true.
Proof.
  intros Hb. destruct k; [done|].
  pose proof (entry_name_spec b Hb) as (H1 & _ & _ & H4).
  unfold entry_name. rewrite no_slash_candidate by done. rewrite andb_true_r.
  unfold candidate.
  destruct b as [|c [|c' b'']]; [done| |]; rewrite !sapp_cons; [rewrite sapp_nil_l|];
    simpl; repeat match goal with |- context [Ascii.eqb ?a ?b] => destruct (Ascii.eqb a b) end;
    simpl; try reflexivity; destruct b''; reflexivity.
Qed.

Lemma entry_name_md (b : string) : no_slash b = true -> entry_name (b +:+ ".md") = true.
Proof.
  intros Hb. unfold entry_name.
  assert (no_slash (b +:+ ".md") = true) as ->.
  { unfold no_slash in *. rewrite str_forallb_app, Hb. reflexivity. }
  rewrite andb_true_r.
  destruct b as [|c [|c' b'']]; [reflexivity| |]; rewrite !sapp_cons; [rewrite sapp_nil_l|];
    simpl; repeat match goal with |- context [Ascii.eqb ?a ?b] => destruct (Ascii.eqb a b) end;
    simpl; try reflexivity; destruct b''; reflexivity.
Qed.

Variable ex : string -> bool.
Variable baseName : string.

(** The first-free property of the name loop, for any test of
    existence. *)
Lemma nameLoop_first_free_any (fuel k m : nat) :
  k <= m -> m < k + fuel -> ex (candidate baseName m) = false ->
  exists m', nameLoop fuel ex baseName (candidate baseName k) (S k)
               = Some (candidate baseName m')
          /\ k <= m' /\ ex (candidate baseName m') = false
          /\ (forall j, k <= j < m' -> ex (candidate baseName j) = true).
Proof.
  revert k. induction fuel as [|fuel IH]; intros k Hkm Hfuel Hm; [lia|].
  simpl. destruct (ex (candidate baseName k)) eqn:Hk.
  - assert (k <> m) by (intros ->; congruence).
    rewrite <- candidate_S.
    destruct (IH (S k)) as (m' & Hr & Hle & Hfree & Hmin); [lia|lia|done|].
    exists m'. split; [done|]. split; [lia|]. split; [done|].
    intros j Hj. destruct (decide (j = k)) as [->|]; [done|]. apply Hmin. lia.
  - exists k. split; [done|]. split; [lia|]. split; [done|]. intros j Hj; lia.
Qed.

(** Pigeonhole: when every taken candidate has its own key in [L], one of
    the first [length L + 1] candidates is free. *)
Lemma candidate_free_within {K} (key : nat -> K) (L : list K) :
  (forall i j, key i = key j -> i = j) ->
  (forall j, ex (candidate baseName j) = true -> key j ∈ L) ->
  exists m, m <= length L /\ ex (candidate baseName m) = false.
Proof.
  intros Hinj Hkey. set (n := length L).
  destruct (forallb (fun j => ex (candidate baseName j)) (seq 0 (S n))) eqn:Hall.
  - exfalso.
    assert (Hinc : incl (map key (seq 0 (S n))) L).
    { intros x Hx. apply in_map_iff in Hx as (j & <- & Hj).
      apply forallb_forall with (x := j) in Hall; [|done].
      by apply list_elem_of_In, Hkey. }
    apply List.NoDup_incl_length in Hinc.
    + rewrite length_map, length_seq in Hinc. unfold n in Hinc. lia.
    + apply Finite.Injective_map_NoDup; [|apply List.seq_NoDup]. exact Hinj.
  - destruct (List.find (fun j => negb (ex (candidate baseName j))) (seq 0 (S n)))
      as [j|] eqn:Hf.
    + apply List.find_some in Hf as [Hj Hneg]. apply in_seq in Hj.
      exists j. split; [unfold n in *; lia|]. by apply negb_true_iff.
    + exfalso. apply Bool.not_true_iff_false in Hall. apply Hall.
      apply forallb_forall. intros j Hj.
      pose proof (List.find_none _ _ Hf j Hj) as Hn. by apply negb_false_iff.
Qed.

End CandidateNames.

Section FsFacts.

Lemma dirname_snoc (p : path) (c : string) : dirname (p ++ [c])%list = p.
Proof. destruct p as [|s p]; [done|]. exact (removelast_last (s :: p) c). Qed.

Lemma existsSync_snoc (f : fsys) (p : path) (c : string) :
  existsSync f (p ++ [c])%list = bool_decide (is_Some (f !! (p ++ [c])%list)).
Proof. by destruct p. Qed.

Lemma is_dir_snoc (f : fsys) (p : path) (c : string) :
  is_dir f (p ++ [c])%list = bool_decide (f !! (p ++ [c])%list = Some DirN).
Proof. by destruct p. Qed.

Lemma wf_fs_spec (f : fsys) (p : path) (v : node) :
  wf_fs f = true -> f !! p = Some v -> p <> [] /\ is_dir f (dirname p) = true.
Proof.
  intros Hwf Hp. unfold wf_fs in Hwf. rewrite forallb_forall in Hwf.
  specialize (Hwf (p, v)). apply andb_true_iff in Hwf as [H1 H2].
  - split; [by apply bool_decide_eq_true in H1|done].
  - apply list_elem_of_In. by apply elem_of_map_to_list.
Qed.

Lemma in_keys (f : fsys) (p : path) :
  is_Some (f !! p) -> p ∈ (map_to_list f).*1.
Proof.
  intros [v Hv]. apply list_elem_of_fmap. exists (p, v). split; [done|].
  by apply elem_of_map_to_list.
Qed.

End FsFacts.

Section CommitHelperFacts.
Context {gstate : Type}.
Variable grun : gcall -> gstate -> result string * gstate.

Lemma helper_commit_ok {E} (erun : gcall -> E -> result string * E) p msg s :
  fst (Helper.commitChanges erun p msg s) = Ok tt.
Proof.
  unfold Helper.commitChanges, mcatch.
  by destruct (Helper.commitChanges_body erun p msg s) as [[[]|e] s'].
Qed.

Lemma bind_fs {A B} (m : M (@cstate gstate) A) (k : A -> M (@cstate gstate) B) :
  (forall s, (st_eng (m s).2).1 = (st_eng s).1) ->
  (forall a s, (st_eng (k a s).2).1 = (st_eng s).1) ->
  forall s, (st_eng ((bind m k) s).2).1 = (st_eng s).1.
Proof.
  intros Hm Hk s. unfold bind. specialize (Hm s).
  destruct (m s) as [[a|e] s']; simpl in *; [by rewrite Hk|done].
Qed.

Lemma mcatch_fs {A} (m : M (@cstate gstate) A) (h : string -> M (@cstate gstate) A) :
  (forall s, (st_eng (m s).2).1 = (st_eng s).1) ->
  (forall e s, (st_eng (h e s).2).1 = (st_eng s).1) ->
  forall s, (st_eng ((mcatch m h) s).2).1 = (st_eng s).1.
Proof.
  intros Hm Hh s. unfold mcatch. specialize (Hm s).
  destruct (m s) as [[a|e] s']; simpl in *; [done|by rewrite Hh].
Qed.

Lemma git_crun_fs (c : gcall) :
  forall s, (st_eng ((git (crun grun) c) s).2).1 = (st_eng s).1.
Proof. intros s. unfold git, crun. by destruct (grun c (st_eng s).2). Qed.

Lemma log_fs (msg : string) :
  forall s : @st (@cstate gstate), (st_eng ((log msg) s).2).1 = (st_eng s).1.
Proof. done. Qed.

Lemma log_error_fs (msg : string) :
  forall s : @st (@cstate gstate), (st_eng ((log_error msg) s).2).1 = (st_eng s).1.
Proof. done. Qed.

Lemma ret_fs {A} (a : A) :
  forall s : @st (@cstate gstate), (st_eng ((ret a) s).2).1 = (st_eng s).1.
Proof. done. Qed.

Ltac keeps_fs :=
  repeat first
    [ apply bind_fs | apply mcatch_fs | apply git_crun_fs | apply log_fs
    | apply log_error_fs | apply ret_fs
    | match goal with
      | |- forall (_ : option _), _ => intros [?|]
      | |- forall (_ : _), _ => intros ?
      | |- context [if ?c then _ else _] => destruct c
      end ].

(** The commit helper only talks to git: the files stay as they are. *)
Lemma helper_commit_fs (p : path) (msg : string) :
  forall s, (st_eng ((Helper.commitChanges (crun grun) p msg) s).2).1 = (st_eng s).1.
Proof.
  unfold Helper.commitChanges, Helper.commitChanges_body, isSubmodule. keeps_fs.
Qed.

End CommitHelperFacts.

Section FolderAdd.
Context {gstate : Type}.
Variable grun : gcall -> gstate -> result string * gstate.

Lemma foldersCommand_add_go (fuel : nat) (cwd : path) (base : string)
    (untracked : bool) (f : fsys) (g : gstate) tr out
    (Hwf : wf_fs f = true) (Hcwd : is_dir f cwd = true)
    (Hmain : isMainNotedRepo f cwd = false) (Hbase : entry_name base = true)
    (Hfuel : size f < fuel) :
  exists k,
    f !! (cwd ++ [candidate base k])%list = None
    /\ (forall j, j < k -> is_Some (f !! (cwd ++ [candidate base j])%list))
    /\ foldersCommand_add grun fuel cwd (Some base) untracked (mkSt (f, g) tr out)
       = Some ((if untracked
                then log ("✔ Folder added without tracking: " +:+ candidate base k)
                else Helper.commitChanges (crun grun) cwd ("Add folder: " +:+ candidate base k))
               (mkSt (<[(cwd ++ [candidate base k; ".gitkeep"])%list := FileN ""]>
                       (<[(cwd ++ [candidate base k])%list := DirN]> f), g) tr
                     (out ++ [LogLine ("✔ Added folder: " +:+ candidate base k);
                              LogLine ("✔ Created .gitkeep file in folder: " +:+ candidate base k)])%list)).
Proof.
  set (ex := fun n => existsSync f (join_str cwd n)).
  assert (Hex : forall j, ex (candidate base j)
                  = bool_decide (is_Some (f !! (cwd ++ [candidate base j])%list))).
  { intros j. unfold ex. rewrite join_str_entry by (by apply entry_name_candidate).
    apply existsSync_snoc. }
  destruct (candidate_free_within ex base (fun j => (cwd ++ [candidate base j])%list)
              (map_to_list f).*1) as (m & Hm & Hfree).
  { intros i j H. apply app_inv_head in H. injection H as H. by apply candidate_inj in H. }
  { intros j Hj. rewrite Hex in Hj. apply bool_decide_eq_true in Hj. by apply in_keys. }
  rewrite length_fmap, length_map_to_list in Hm.
  destruct (nameLoop_first_free_any ex base fuel 0 m) as (k & Hr & _ & Hk & Hmin);
    [lia|lia|done|].
  assert (Hn : f !! (cwd ++ [candidate base k])%list = None).
  { rewrite Hex in Hk. apply bool_decide_eq_false in Hk. by apply eq_None_not_Some. }
  exists k. set (n := candidate base k) in *.
  split; [done|]. split.
  { intros j Hj. specialize (Hmin j ltac:(lia)). rewrite Hex in Hmin.
    by apply bool_decide_eq_true in Hmin. }
  assert (Hgk : f !! ((cwd ++ [n]) ++ [".gitkeep"])%list = None).
  { destruct (f !! ((cwd ++ [n]) ++ [".gitkeep"])%list) as [v|] eqn:Hv; [|done].
    apply wf_fs_spec in Hv as [_ Hd]; [|done].
    rewrite dirname_snoc, is_dir_snoc, Hn in Hd. by apply bool_decide_eq_true in Hd. }
  assert (Hjoin : join_str cwd n = (cwd ++ [n])%list)
    by (apply join_str_entry, entry_name_candidate, Hbase).
  unfold foldersCommand_add. cbn [st_eng fst]. rewrite Hmain.
  assert (Hb : String.eqb base "" = false).
  { apply String.eqb_neq. by apply entry_name_spec in Hbase as [? _]. }
  cbn [default]. unfold id. rewrite Hb.
  change (fun n0 => existsSync f (join_str cwd n0)) with ex. cbn [candidate] in Hr.
  rewrite Hr. f_equal.
  unfold mcatch, folder_add_create. rewrite Hjoin.
  unfold bind at 1, fs_call at 1. cbn [st_eng fst].
  unfold mkdirSync. rewrite existsSync_snoc, bool_decide_false by (rewrite Hn; apply is_Some_None).
  rewrite dirname_snoc, Hcwd.
  unfold bind at 1, log at 1. cbn [st_eng st_trace st_out fst snd].
  unfold bind at 1, fs_call at 1. cbn [st_eng st_trace st_out fst snd].
  unfold writeFileSync, join.
  rewrite is_dir_snoc, lookup_insert_ne by (intros H; apply (f_equal length) in H;
    rewrite !length_app in H; simpl in H; lia).
  rewrite Hgk, bool_decide_false by done. cbn [andb].
  rewrite dirname_snoc, is_dir_snoc, lookup_insert_eq, bool_decide_true by done.
  unfold bind at 1, log at 1. cbn [st_eng st_trace st_out fst snd].
  rewrite <- !app_assoc. cbn [app].
  destruct untracked; cbn [negb].
  - reflexivity.
  - match goal with |- context [Helper.commitChanges ?e ?p ?m ?s] =>
      pose proof (helper_commit_ok e p m s) as Hok;
      destruct (Helper.commitChanges e p m s) as [r s'] eqn:E end.
    simpl in Hok. subst r. by rewrite <- E.
Qed.

(** X6. [folder add] creates the first free name among [base], [base-1], [base-2], ... as a directory with an empty [.gitkeep] file, logs both creations and then commits or reports the untracked folder. *)
Theorem foldersCommand_add_creates (fuel : nat) (cwd : path) (base : string)
    (untracked : bool) (f : fsys) (g : gstate) tr out
    (Hwf : wf_fs f = true) (Hcwd : is_dir f cwd = true)
    (Hmain : isMainNotedRepo f cwd = false) (Hbase : entry_name base = true)
    (Hfuel : size f < fuel) :
  exists k,
    f !! (cwd ++ [candidate base k])%list = None
    /\ (forall j, j < k -> is_Some (f !! (cwd ++ [candidate base j])%list))
    /\ foldersCommand_add grun fuel cwd (Some base) untracked (mkSt (f, g) tr out)
       = Some ((if untracked
                then log ("✔ Folder added without tracking: " +:+ candidate base k)
                else Helper.commitChanges (crun grun) cwd ("Add folder: " +:+ candidate base k))
               (mkSt (<[(cwd ++ [candidate base k; ".gitkeep"])%list := FileN ""]>
                       (<[(cwd ++ [candidate base k])%list := DirN]> f), g) tr
                     (out ++ [LogLine ("✔ Added folder: " +:+ candidate base k);
                              LogLine ("✔ Created .gitkeep file in folder: " +:+ candidate base k)])%list)).
Proof. apply foldersCommand_add_go; assumption. Qed.

End FolderAdd.

Lemma endsWith_app (x suf : string) : endsWith (x +:+ suf) suf = true.
Proof.
  unfold endsWith. rewrite string_length_app.
  replace (String.length x + String.length suf - String.length suf)
    with (String.length x) by lia.
  rewrite substring_app. apply andb_true_iff. split.
  - apply Nat.leb_le. lia.
  - apply String.eqb_refl.
Qed.

Ltac commit_step grun :=
  match goal with
  | |- context [Helper.commitChanges ?e ?p ?m ?s] =>
      let Hfs := fresh "Hfs" in let Hok := fresh "Hok" in
      pose proof (helper_commit_fs grun p m s) as Hfs;
      pose proof (helper_commit_ok e p m s) as Hok;
      destruct (Helper.commitChanges e p m s) as [[[]|?] ?];
      simpl in Hfs, Hok |- *; [|discriminate]
  end.

Section NoteAndFolder.
Context {gstate : Type}.
Variable grun : gcall -> gstate -> result string * gstate.



(** X12. When the path [note delete] targets is missing or is a directory, the command changes nothing and prints one error line: that the note does not exist, or the [rmSync] directory error. *)
Theorem noteCommand_delete_not_a_file (cwd : path) (x : string) (f : fsys) (g : gstate) tr out :
  let np := join_str cwd (if endsWith x ".md" then x else x +:+ ".md") in
  existsSync f np && negb (is_dir f np) = false ->
  noteCommand_delete grun cwd x (mkSt (f, g) tr out)
  = (Ok tt, mkSt (f, g) tr
              (out ++ [ErrorLine
                 (if existsSync f np
                  then "✖ Error deleting note: Path is a directory: rm returned EISDIR (is a directory) "
                       +:+ path_str np
                  else "✖ Error: Note '" +:+ x +:+ "' does not exist.")])%list).
Proof.
  intros np Hnf.
  assert (Hnp : (if negb (endsWith x ".md") then join_str cwd (x +:+ ".md")
                 else join_str cwd x) = np)
    by (unfold np; by destruct (endsWith x ".md")).
  unfold noteCommand_delete. rewrite Hnp.
  unfold mcatch, bind at 1, fs_exists. cbn [st_eng fst].
  destruct (existsSync f np) eqn:He; cbn [negb andb]; [|reflexivity].
  unfold bind at 1, fs_call, rmSync. cbn [st_eng fst snd]. rewrite He. cbn [negb].
  destruct (is_dir f np); [reflexivity|discriminate].
Qed.

Lemma join_str_dot (cwd : path) (name : string) :
  name = "" \/ name = "." -> join_str cwd name = cwd.
Proof.
  intros [-> | ->]; unfold join_str; simpl; by rewrite rev_involutive.
Qed.

Lemma join_str_dotdot (cwd : path) : join_str cwd ".." = dirname cwd.
Proof.
  unfold join_str. simpl. destruct cwd as [|c cwd'] using rev_ind; [done|].
  rewrite rev_app_distr. simpl. rewrite rev_involutive. symmetry. apply dirname_snoc.
Qed.

Lemma foldersCommand_delete_fs_eq (cwd : path) (name : string) (s : @st (@cstate gstate)) :
  let fp := join_str cwd name in
  (st_eng (foldersCommand_delete grun cwd name s).2).1 =
  (if existsSync (st_eng s).1 fp
   then filter (fun kv => ~ fp `prefix_of` kv.1) (st_eng s).1 else (st_eng s).1).
Proof.
  intros fp. destruct s as [[f g] tr out].
  unfold foldersCommand_delete, mcatch, bind at 1, fs_exists. cbn [st_eng fst].
  fold fp. destruct (existsSync f fp) eqn:He; cbn [negb]; [|reflexivity].
  unfold bind at 1, fs_call, rmSync_rf. cbn [st_eng fst snd].
  unfold bind at 1, log at 1. cbn [st_eng st_trace st_out fst snd].
  commit_step grun. exact Hfs.
Qed.


(** X8. [folder delete] with the name "" or "." removes the whole current directory, and with ".." its parent, with everything below. *)
Theorem foldersCommand_delete_dot_names (cwd : path) (name : string) (f : fsys) (g : gstate) tr out
    (Hwf : wf_fs f = true) (Hcwd : existsSync f cwd = true)
    (Hname : name = "" \/ name = "." \/ name = "..") :
  forall k, (if String.eqb name ".." then dirname cwd else cwd) `prefix_of` k ->
  (st_eng (foldersCommand_delete grun cwd name (mkSt (f, g) tr out)).2).1 !! k = None.
Proof.
  intros k Hk. rewrite foldersCommand_delete_fs_eq. cbn [st_eng fst].
  assert (Hfp : join_str cwd name = if String.eqb name ".." then dirname cwd else cwd).
  { destruct Hname as [-> | [-> | ->]]; simpl;
      [by apply join_str_dot; left|by apply join_str_dot; right|apply join_str_dotdot]. }
  rewrite Hfp.
  assert (Hex : existsSync f (if String.eqb name ".." then dirname cwd else cwd) = true).
  { destruct (String.eqb name ".."); [|done].
    destruct cwd as [|c cwd']; [done|].
    unfold existsSync in Hcwd. apply bool_decide_eq_true in Hcwd as [v Hv].
    apply wf_fs_spec in Hv as [_ Hd]; [|done].
    destruct (dirname (c :: cwd')) eqn:Ed; [done|].
    unfold is_dir in Hd. apply bool_decide_eq_true in Hd. unfold existsSync.
    apply bool_decide_eq_true. by eexists. }
  rewrite Hex. apply map_lookup_filter_None. right. intros v _ Hn. by apply Hn.
Qed.

Lemma noteCommand_add_go (fuel : nat) (cwd : path) (base : string)
    (untracked : bool) (f : fsys) (g : gstate) tr out
    (Hcwd : is_dir f cwd = true) (Hmain : isMainNotedRepo f cwd = false)
    (Hbase : no_slash base = true) (Hfuel : size f < fuel) :
  exists k,
    f !! (cwd ++ [candidate base k +:+ ".md"])%list = None
    /\ (forall j, j < k -> is_Some (f !! (cwd ++ [candidate base j +:+ ".md"])%list))
    /\ noteCommand_add grun fuel cwd (Some base) untracked (mkSt (f, g) tr out)
       = Some ((if untracked
                then log ("✔ Created untracked note: " +:+ candidate base k)
                else Helper.commitChanges (crun grun) cwd ("Add note: " +:+ candidate base k))
               (mkSt (<[(cwd ++ [candidate base k +:+ ".md"])%list
                          := FileN ("# " +:+ candidate base k +:+ newline)]> f, g) tr
                     (out ++ [LogLine ("✔ Created note: " +:+ candidate base k
                                       +:+ " in the current workspace")])%list)).
Proof.
  set (ex := fun n => existsSync f (join_str cwd (n +:+ ".md"))).
  assert (Hex : forall j, ex (candidate base j)
                  = bool_decide (is_Some (f !! (cwd ++ [candidate base j +:+ ".md"])%list))).
  { intros j. unfold ex. rewrite join_str_entry
      by (by apply entry_name_md, no_slash_candidate).
    apply existsSync_snoc. }
  destruct (candidate_free_within ex base
              (fun j => (cwd ++ [candidate base j +:+ ".md"])%list)
              (map_to_list f).*1) as (m & Hm & Hfree).
  { intros i j H. apply app_inv_head in H. injection H as H.
    apply string_app_cancel_r in H. by apply candidate_inj in H. }
  { intros j Hj. rewrite Hex in Hj. apply bool_decide_eq_true in Hj. by apply in_keys. }
  rewrite length_fmap, length_map_to_list in Hm.
  destruct (nameLoop_first_free_any ex base fuel 0 m) as (k & Hr & _ & Hk & Hmin);
    [lia|lia|done|].
  assert (Hn : f !! (cwd ++ [candidate base k +:+ ".md"])%list = None).
  { rewrite Hex in Hk. apply bool_decide_eq_false in Hk. by apply eq_None_not_Some. }
  exists k. set (n := candidate base k) in *.
  split; [done|]. split.
  { intros j Hj. specialize (Hmin j ltac:(lia)). rewrite Hex in Hmin.
    by apply bool_decide_eq_true in Hmin. }
  assert (Hjoin : join_str cwd (n +:+ ".md") = (cwd ++ [n +:+ ".md"])%list)
    by (apply join_str_entry, entry_name_md, no_slash_candidate, Hbase).
  unfold noteCommand_add. cbn [st_eng fst]. rewrite Hmain.
  cbn [default]. unfold id.
  change (fun n0 => existsSync f (join_str cwd (n0 +:+ ".md"))) with ex.
  cbn [candidate] in Hr. rewrite Hr. f_equal.
  unfold mcatch, note_add_create. rewrite Hjoin.
  unfold bind at 1, fs_call at 1. cbn [st_eng fst].
  unfold writeFileSync. rewrite is_dir_snoc, Hn, bool_decide_false by done.
  cbn [andb]. rewrite dirname_snoc, Hcwd.
  unfold bind at 1, log at 1. cbn [st_eng st_trace st_out fst snd].
  destruct untracked; cbn [negb].
  - reflexivity.
  - match goal with |- context [Helper.commitChanges ?e ?p ?m ?s] =>
      pose proof (helper_commit_ok e p m s) as Hok;
      destruct (Helper.commitChanges e p m s) as [r s'] eqn:E end.
    simpl in Hok. subst r. by rewrite <- E.
Qed.

(** X10. [note add] writes [# name] and a newline into the first free file among [base.md], [base-1.md], ..., logs it and then commits or reports the untracked note. *)
Theorem noteCommand_add_creates (fuel : nat) (cwd : path) (base : string)
    (untracked : bool) (f : fsys) (g : gstate) tr out
    (Hcwd : is_dir f cwd = true) (Hmain : isMainNotedRepo f cwd = false)
    (Hbase : no_slash base = true) (Hfuel : size f < fuel) :
  exists k,
    f !! (cwd ++ [candidate base k +:+ ".md"])%list = None
    /\ (forall j, j < k -> is_Some (f !! (cwd ++ [candidate base j +:+ ".md"])%list))
    /\ noteCommand_add grun fuel cwd (Some base) untracked (mkSt (f, g) tr out)
       = Some ((if untracked
                then log ("✔ Created untracked note: " +:+ candidate base k)
                else Helper.commitChanges (crun grun) cwd ("Add note: " +:+ candidate base k))
               (mkSt (<[(cwd ++ [candidate base k +:+ ".md"])%list
                          := FileN ("# " +:+ candidate base k +:+ newline)]> f, g) tr
                     (out ++ [LogLine ("✔ Created note: " +:+ candidate base k
                                       +:+ " in the current workspace")])%list)).
Proof. apply noteCommand_add_go; assumption. Qed.

End NoteAndFolder.

Section RegexScan.








Lemma prefix_cons (a b : ascii) (u t : string) :
  String.prefix (String a u) (String b t)
  = if ascii_dec a b then String.prefix u t else false.
Proof. reflexivity. Qed.


















End RegexScan.

Section WorkspaceList.

Lemma split_char_app (sep : ascii) (x t : string) :
  str_forallb (fun a => negb (Ascii.eqb a sep)) x = true ->
  split_char sep (x +:+ String sep t) = x :: split_char sep t.
Proof.
  induction x as [|a x IH]; intros Hx.
  - simpl. by rewrite Ascii.eqb_refl.
  - simpl in Hx. apply andb_true_iff in Hx as [Ha Hx]. apply negb_true_iff in Ha.
    rewrite sapp_cons. simpl. rewrite Ha, IH by done. reflexivity.
Qed.

Lemma split_char_none (sep : ascii) (x : string) :
  str_forallb (fun a => negb (Ascii.eqb a sep)) x = true -> split_char sep x = [x].
Proof.
  induction x as [|a x IH]; intros Hx; [done|].
  simpl in Hx. apply andb_true_iff in Hx as [Ha Hx]. apply negb_true_iff in Ha.
  simpl. rewrite Ha, IH by done. reflexivity.
Qed.

Lemma no_ws_no_char (c : ascii) (x : string) :
  is_ws c = true -> no_ws x = true -> str_forallb (fun a => negb (Ascii.eqb a c)) x = true.
Proof.
  intros Hc. unfold no_ws. induction x as [|a x IH]; [done|]. simpl.
  intros [Ha Hx]%andb_true_iff. rewrite IH by done. rewrite andb_true_r.
  apply negb_true_iff. destruct (Ascii.eqb_spec a c) as [->|]; [|done].
  by rewrite Hc in Ha.
Qed.

Lemma trim_nonempty (c : ascii) (s : string) :
  is_ws c = false -> trim (String c s) <> "".
Proof.
  intros Hc. unfold trim. simpl. rewrite Hc. simpl. rewrite Hc, andb_false_r. done.
Qed.

Lemma trim_length_pos (c : ascii) (s : string) :
  is_ws c = false -> String.length (trim (String c s)) <> 0.
Proof.
  intros Hc Hl. apply (trim_nonempty c s Hc). by destruct (trim (String c s)).
Qed.

Lemma trim_skip_ws (c : ascii) (s : string) :
  is_ws c = true -> trim (String c s) = trim s.
Proof. intros Hc. unfold trim. simpl. by rewrite Hc. Qed.

Lemma split_char_cons (sep a : ascii) (s : string) :
  split_char sep (String a s)
  = if Ascii.eqb a sep then "" :: split_char sep s
    else match split_char sep s with
         | [] => [String a ""]
         | c :: cs => String a c :: cs
         end.
Proof. reflexivity. Qed.

Lemma sapp_single (a : ascii) (t : string) : String a "" +:+ t = String a t.
Proof. reflexivity. Qed.

Lemma is_ws_space : is_ws " " = true.
Proof. reflexivity. Qed.

Lemma is_ws_nl : is_ws (ascii_of_nat 10) = true.
Proof. reflexivity. Qed.

(** What [parts[2]] of a status line is. *)
Lemma status_line_field2 (st : ascii) (sha p : string) (desc : option string) :
  no_ws sha = true -> no_ws p = true ->
  match desc with Some d => no_ws d | None => true end = true ->
  js_show (nth_error (split_char " "
    (String st (sha +:+ " " +:+ p +:+
                match desc with Some d => " (" +:+ d +:+ ")" | None => "" end))) 2)
  = if Ascii.eqb st " " then p
    else match desc with Some d => "(" +:+ d +:+ ")" | None => "undefined" end.
Proof.
  intros Hsha Hp Hd.
  assert (Hrest : split_char " " (p +:+ match desc with Some d => " (" +:+ d +:+ ")" | None => "" end)
                  = p :: match desc with Some d => ["(" +:+ d +:+ ")"] | None => [] end).
  { destruct desc as [d|].
    - change (" (" +:+ d +:+ ")") with (String " " ("(" +:+ d +:+ ")")).
      rewrite split_char_app by (by apply no_ws_no_char).
      rewrite split_char_none; [done|].
      rewrite sapp_cons, sapp_nil_l. simpl. rewrite str_forallb_app.
      rewrite no_ws_no_char by done. reflexivity.
    - cbv beta iota. rewrite sapp_nil_r. by rewrite split_char_none by (by apply no_ws_no_char). }
  rewrite split_char_cons. rewrite sapp_single.
  rewrite split_char_app by (by apply no_ws_no_char). rewrite Hrest.
  destruct (Ascii.eqb st " "); [done|]. by destruct desc.
Qed.

Lemma no_nl_status_body (sha p : string) (desc : option string) :
  no_ws sha = true -> no_ws p = true ->
  match desc with Some d => no_ws d | None => true end = true ->
  str_forallb (fun a => negb (Ascii.eqb a (ascii_of_nat 10)))
    (sha +:+ " " +:+ p +:+ match desc with Some d => " (" +:+ d +:+ ")" | None => "" end)
  = true.
Proof.
  intros Hsha Hp Hd. rewrite !str_forallb_app.
  rewrite (no_ws_no_char _ sha is_ws_nl), (no_ws_no_char _ p is_ws_nl) by done.
  destruct desc as [d|]; cbv beta iota; [|reflexivity]. rewrite !str_forallb_app.
  by rewrite (no_ws_no_char _ d is_ws_nl).
Qed.

(** X19. On [git submodule status] output, [workspace list] prints the path for an up-to-date submodule but, for a submodule whose status character is not a space, the parenthesised description or "undefined". *)
Theorem workspaceCommand_list_names
    (entries : list (ascii * string * string * option string))
    (Hne : entries <> [])
    (Hok : forallb (fun e =>
              let '(st, sha, p, desc) := e in
              (Ascii.eqb st " " || Ascii.eqb st "+" || Ascii.eqb st "-" || Ascii.eqb st "U")
              && negb (String.eqb sha "") && no_ws sha && no_ws p
              && match desc with Some d => no_ws d | None => true end) entries = true) :
  workspaceCommand_list
    (foldr (fun e acc => let '(st, sha, p, desc) := e in status_line st sha p desc +:+ acc)
       "" entries) false
  = LogLine "Workspaces (Submodules):"
    :: map (fun e => let '(st, sha, p, desc) := e in
                     LogLine (if Ascii.eqb st " " then p
                              else match desc with
                                   | Some d => "(" +:+ d +:+ ")"
                                   | None => "undefined"
                                   end)) entries.
Proof.
  set (body := fun (e : ascii * string * string * option string) =>
         let '(st, sha, p, desc) := e in
         String st (sha +:+ " " +:+ p +:+
                    match desc with Some d => " (" +:+ d +:+ ")" | None => "" end)).
  assert (Hsplit : split_char (ascii_of_nat 10)
            (foldr (fun e acc => let '(st, sha, p, desc) := e in status_line st sha p desc +:+ acc)
               "" entries)
          = (map body entries ++ [""])%list).
  { clear Hne. induction entries as [|[[[st sha] p] desc] es IH]; [done|].
    cbn [forallb] in Hok. apply andb_true_iff in Hok as [He Hes].
    apply andb_true_iff in He as [[[[Hst Hsha0]%andb_true_iff Hsha]%andb_true_iff Hp]%andb_true_iff Hd].
    cbn [foldr map]. unfold status_line. rewrite <- sapp_assoc.
    unfold newline. rewrite (sapp_single (ascii_of_nat 10)).
    rewrite split_char_app.
    - cbn [app]. f_equal. apply IH, Hes.
    - simpl. rewrite no_nl_status_body by done. rewrite andb_true_r.
      apply negb_true_iff.
      repeat (apply orb_true_iff in Hst as [Hst|Hst]);
        apply Ascii.eqb_eq in Hst; subst st; reflexivity. }
  unfold workspaceCommand_list.
  destruct entries as [|[[[st sha] p] desc] es]; [done|].
  assert (Htop : Nat.eqb (String.length (trim (foldr (fun e acc =>
                    let '(st, sha, p, desc) := e in status_line st sha p desc +:+ acc)
                    "" ((st, sha, p, desc) :: es)))) 0 = false).
  { cbn [forallb] in Hok. apply andb_true_iff in Hok as [He _].
    apply andb_true_iff in He as [[[[Hst Hsha0]%andb_true_iff Hsha]%andb_true_iff Hp]%andb_true_iff Hd].
    apply Nat.eqb_neq. cbn [foldr]. unfold status_line. rewrite <- sapp_assoc, sapp_cons.
    destruct sha as [|c sha']; [done|].
    assert (Hc : is_ws c = false).
    { unfold no_ws in Hsha. simpl in Hsha. apply andb_true_iff in Hsha as [Hc _].
      by apply negb_true_iff. }
    destruct (is_ws st) eqn:Hws.
    - rewrite trim_skip_ws by done. rewrite sapp_cons. by apply trim_length_pos.
    - by apply trim_length_pos. }
  rewrite Htop. f_equal. rewrite Hsplit.
  rewrite flat_map_app. cbn [flat_map]. rewrite app_nil_r.
  clear Hsplit Htop Hne. revert Hok.
  generalize ((st, sha, p, desc) :: es) as l. intros l Hok.
  induction l as [|[[[st' sha'] p'] desc'] l IH]; [done|].
  cbn [forallb] in Hok. apply andb_true_iff in Hok as [He Hes].
  apply andb_true_iff in He as [[[[Hst Hsha0]%andb_true_iff Hsha]%andb_true_iff Hp]%andb_true_iff Hd].
  cbn [flat_map map]. rewrite IH by done. unfold body at 1.
  assert (Htrim : String.eqb (trim (String st' (sha' +:+ " " +:+ p' +:+
                    match desc' with Some d => " (" +:+ d +:+ ")" | None => "" end))) "" = false).
  { apply String.eqb_neq. destruct sha' as [|c sha'']; [done|].
    assert (Hc : is_ws c = false).
    { unfold no_ws in Hsha. simpl in Hsha. apply andb_true_iff in Hsha as [Hc _].
      by apply negb_true_iff. }
    destruct (is_ws st') eqn:Hws.
    - rewrite trim_skip_ws by done. rewrite sapp_cons. by apply trim_nonempty.
    - by apply trim_nonempty. }
  rewrite Htrim. cbn [app]. f_equal. f_equal. by apply status_line_field2.
Qed.

End WorkspaceList.

Section NextLine.


End NextLine.


Section Compose.
Context {gstate : Type}.
Variable grun : gcall -> gstate -> result string * gstate.




End Compose.

Lemma index_cons0 (pat : string) (b : ascii) (t : string) :
  String.index 0 pat (String b t)
  = if String.prefix pat (String b t) then Some 0
    else match String.index 0 pat t with Some n => Some (S n) | None => None end.
Proof. reflexivity. Qed.

Lemma index_md_app (x : string) :
  String.index 0 ".md" x = None -> String.index 0 ".md" (x +:+ ".md") = Some (String.length x).
Proof.
  induction x as [|b x IH]; [reflexivity|].
  rewrite sapp_cons, !index_cons0. intros H.
  destruct (String.prefix ".md" (String b x)) eqn:Hp; [discriminate|].
  destruct (String.index 0 ".md" x) eqn:Hx; [discriminate|].
  rewrite (IH eq_refl).
  assert (Hq : String.prefix ".md" (String b (x +:+ ".md")) = false).
  { rewrite prefix_cons in Hp |- *. destruct (ascii_dec "." b) as [<-|]; [|done].
    destruct x as [|c1 [|c2 x']]; [reflexivity| |].
    { rewrite sapp_cons, sapp_nil_l, prefix_cons. by destruct (ascii_dec "m" c1). }
    rewrite !sapp_cons. rewrite !prefix_cons in Hp |- *.
    destruct (ascii_dec "m" c1); [|done]. destruct (ascii_dec "d" c2); [|done].
    by destruct x'. }
  by rewrite Hq.
Qed.

Lemma substring_0_app (x t : string) :
  String.substring 0 (String.length x) (x +:+ t) = x.
Proof.
  induction x as [|a x IH]; [by destruct t|]. rewrite sapp_cons. simpl. by rewrite IH.
Qed.

Lemma substring_len0 (n : nat) (s : string) : String.substring n 0 s = "".
Proof.
  revert s. induction n as [|n IH]; intros [|a s]; simpl; auto.
Qed.

Lemma js_replace_md (x : string) :
  String.index 0 ".md" x = None -> js_replace (x +:+ ".md") ".md" "" = x.
Proof.
  intros H. unfold js_replace. rewrite (index_md_app x H).
  rewrite substring_0_app, string_length_app.
  replace (String.length x + String.length ".md" - (String.length x + String.length ".md"))
    with 0 by lia.
  rewrite substring_len0, sapp_nil_l, sapp_nil_r. reflexivity.
Qed.


Lemma readdirSync_dir (f : fsys) (p : path) :
  is_dir f p = true ->
  exists items, readdirSync f p = Ok items /\
    forall d, d ∈ items <-> exists c v, f !! (p ++ [c])%list = Some v /\
      d = mkDirent c (bool_decide (v = DirN)) (negb (bool_decide (v = DirN))).
Proof.
  intros Hd. unfold readdirSync.
  assert (He : existsSync f p = true).
  { destruct p as [|c p]; [done|]. unfold is_dir in Hd. unfold existsSync.
    apply bool_decide_eq_true in Hd. apply bool_decide_eq_true. by eexists. }
  rewrite He, Hd. cbn [negb]. eexists. split; [reflexivity|]. intros d.
  rewrite list_elem_of_omap. split.
  - intros ([k v] & Hin & Hs). apply elem_of_map_to_list in Hin. cbn [fst snd] in Hs.
    case_bool_decide as Hk; [|discriminate]. destruct Hk as [Hk Hdk].
    injection Hs as <-. exists (List.last k ""), v. split; [|done].
    rewrite <- Hdk. unfold dirname. destruct k as [|s k]; [done|].
    by rewrite <- app_removelast_last.
  - intros (c & v & Hv & ->). exists ((p ++ [c])%list, v). split.
    + by apply elem_of_map_to_list.
    + cbn [fst snd]. rewrite bool_decide_eq_true_2.
      * by rewrite List.last_last.
      * split; [by destruct p|apply dirname_snoc].
Qed.

Lemma foldersCommand_list_go (f : fsys) (cwd : path) (n : string) :
  is_dir f cwd = true ->
  LogLine n ∈ foldersCommand_list f cwd <->
  (f !! (cwd ++ [n])%list = Some DirN /\ startsWith n "." = false)
  \/ (n = "No folders found." /\
      forall c, f !! (cwd ++ [c])%list = Some DirN -> startsWith c "." = true).
Proof.
  intros Hd. destruct (readdirSync_dir f cwd Hd) as (items & Hr & Hitems).
  unfold foldersCommand_list. rewrite Hr. cbv zeta.
  remember (filter _ items) as fs eqn:Efs.
  assert (Hf : forall c, mkDirent c true false ∈ fs <->
                 f !! (cwd ++ [c])%list = Some DirN /\ startsWith c "." = false).
  { intros c. rewrite Efs, list_elem_of_filter, Hitems. cbn.
    split.
    - intros [Hp (c' & v & Hv & Hm)]. injection Hm as -> Hv1 _.
      symmetry in Hv1. apply bool_decide_eq_true in Hv1. subst v.
      split; [done|]. revert Hp. unfold startsWith.
      destruct (String.prefix "." c'); simpl; [intros []|done].
    - intros [Hv Hs]. unfold startsWith in Hs. rewrite Hs. split; [done|].
      exists c, DirN. split; [done|]. by rewrite bool_decide_eq_true_2. }
  assert (Hshape : forall d, d ∈ fs -> d = mkDirent (dirent_name d) true false).
  { intros d Hin. rewrite Efs in Hin. apply list_elem_of_filter in Hin as [Hp Hin].
    apply Hitems in Hin as (c & v & Hv & ->). cbn in Hp |- *.
    destruct (bool_decide (v = DirN)); [done|destruct Hp]. }
  clear Efs. destruct fs as [|d0 ds].
  - split.
    + intros Hin. apply list_elem_of_singleton in Hin. injection Hin as ->. right.
      split; [done|]. intros c Hc. destruct (startsWith c ".") eqn:Hs; [done|].
      assert (Hm := proj2 (Hf c) (conj Hc Hs)). by inversion Hm.
    + intros [Hl | [-> _]]; [|by left].
      assert (Hm := proj2 (Hf n) Hl). by inversion Hm.
  - split.
    + intros Hin. apply list_elem_of_In, in_map_iff in Hin as (d & Hn & Hd').
      apply list_elem_of_In in Hd'.
      injection Hn as <-. left. apply Hf. by rewrite <- Hshape.
    + intros [Hl | [-> Hall]].
      * apply list_elem_of_In, in_map_iff. exists (mkDirent n true false). split; [done|].
        apply list_elem_of_In. by apply Hf.
      * exfalso. assert (Hd0 : d0 ∈ d0 :: ds) by left.
        pose proof (Hshape d0 Hd0) as E.
        assert (Hd1 : mkDirent (dirent_name d0) true false ∈ d0 :: ds) by (rewrite <- E; left).
        apply Hf in Hd1 as [Hv Hs].
        rewrite (Hall _ Hv) in Hs. discriminate.
Qed.

Lemma noteCommand_list_go (f : fsys) (cwd : path) (m : string) :
  is_dir f cwd = true ->
  LogLine m ∈ noteCommand_list f cwd <->
  (exists name data, f !! (cwd ++ [name])%list = Some (FileN data)
                     /\ endsWith name ".md" = true /\ m = js_replace name ".md" "")
  \/ (m = "No notes found in the current workspace." /\
      forall name data, f !! (cwd ++ [name])%list = Some (FileN data) ->
                        endsWith name ".md" = false).
Proof.
  intros Hd. destruct (readdirSync_dir f cwd Hd) as (items & Hr & Hitems).
  unfold noteCommand_list. rewrite Hr. cbv zeta.
  remember (filter _ items) as fs eqn:Efs.
  assert (Hf : forall c, mkDirent c false true ∈ fs <->
                 (exists data, f !! (cwd ++ [c])%list = Some (FileN data))
                 /\ endsWith c ".md" = true).
  { intros c. rewrite Efs, list_elem_of_filter, Hitems. cbn.
    split.
    - intros [Hp (c' & v & Hv & Hm)]. injection Hm as -> Hv1 _.
      destruct v as [|data]; [by rewrite bool_decide_eq_true_2 in Hv1|].
      split; [by exists data|]. revert Hp. by destruct (endsWith c' ".md").
    - intros [[data Hv] Hs]. rewrite Hs. split; [done|].
      exists c, (FileN data). split; [done|]. by rewrite bool_decide_eq_false_2. }
  assert (Hshape : forall d, d ∈ fs -> d = mkDirent (dirent_name d) false true).
  { intros d Hin. rewrite Efs in Hin. apply list_elem_of_filter in Hin as [Hp Hin].
    apply Hitems in Hin as (c & v & Hv & ->). cbn in Hp |- *.
    destruct (bool_decide (v = DirN)); [destruct Hp|done]. }
  clear Efs. destruct fs as [|d0 ds].
  - split.
    + intros Hin. apply list_elem_of_singleton in Hin. injection Hin as ->. right.
      split; [done|]. intros name data Hc. destruct (endsWith name ".md") eqn:Hs; [|done].
      assert (Hm := proj2 (Hf name) (conj (ex_intro _ data Hc) Hs)). by inversion Hm.
    + intros [(name & data & Hv & Hs & _) | [-> _]]; [|by left].
      assert (Hm := proj2 (Hf name) (conj (ex_intro _ data Hv) Hs)). by inversion Hm.
  - split.
    + intros Hin. apply list_elem_of_In, in_map_iff in Hin as (d & Hn & Hd').
      apply list_elem_of_In in Hd'. injection Hn as <-. left.
      pose proof (Hshape d Hd') as E.
      assert (Hd1 : mkDirent (dirent_name d) false true ∈ d0 :: ds) by (rewrite <- E; done).
      apply Hf in Hd1 as [[data Hv] Hs]. by exists (dirent_name d), data.
    + intros [(name & data & Hv & Hs & ->) | [-> Hall]].
      * apply list_elem_of_In, in_map_iff. exists (mkDirent name false true). split; [done|].
        apply list_elem_of_In. apply Hf. split; [by exists data|done].
      * exfalso. assert (Hd0 : d0 ∈ d0 :: ds) by left.
        pose proof (Hshape d0 Hd0) as E.
        assert (Hd1 : mkDirent (dirent_name d0) false true ∈ d0 :: ds) by (rewrite <- E; left).
        apply Hf in Hd1 as [[data Hv] Hs].
        rewrite (Hall _ _ Hv) in Hs. discriminate.
Qed.

Lemma noteCommand_list_shows_go (f : fsys) (cwd : path) (x data : string) :
  is_dir f cwd = true ->
  f !! (cwd ++ [x +:+ ".md"])%list = Some (FileN data) ->
  String.index 0 ".md" x = None ->
  LogLine x ∈ noteCommand_list f cwd.
Proof.
  intros Hd Hv Hx. apply (noteCommand_list_go f cwd x Hd). left.
  exists (x +:+ ".md"), data. split; [done|]. split; [apply endsWith_app|].
  by rewrite js_replace_md.
Qed.

(** X14. In a directory, [folder list] prints a name exactly when it is a subdirectory whose name does not start with a dot; it prints "No folders found." exactly when there is no such subdirectory. *)
Theorem foldersCommand_list_spec (f : fsys) (cwd : path) (n : string)
    (Hcwd : is_dir f cwd = true) :
  LogLine n ∈ foldersCommand_list f cwd <->
  (f !! (cwd ++ [n])%list = Some DirN /\ startsWith n "." = false)
  \/ (n = "No folders found." /\
      forall c, f !! (cwd ++ [c])%list = Some DirN -> startsWith c "." = true).
Proof. by apply foldersCommand_list_go. Qed.

(** X15. In a directory, [note list] prints, for each file whose name ends in [.md], the name with its first [.md] removed, and "No notes found in the current workspace." when there is no such file. *)
Theorem noteCommand_list_spec (f : fsys) (cwd : path) (m : string)
    (Hcwd : is_dir f cwd = true) :
  LogLine m ∈ noteCommand_list f cwd <->
  (exists name data, f !! (cwd ++ [name])%list = Some (FileN data)
                     /\ endsWith name ".md" = true /\ m = js_replace name ".md" "")
  \/ (m = "No notes found in the current workspace." /\
      forall name data, f !! (cwd ++ [name])%list = Some (FileN data) ->
                        endsWith name ".md" = false).
Proof. by apply noteCommand_list_go. Qed.

(** X16. A note file [x.md] in the current directory, with no [.md] inside [x], is listed by [note list] as [x]; hidden notes are listed too. *)
Theorem noteCommand_list_shows_note (f : fsys) (cwd : path) (x data : string)
    (Hcwd : is_dir f cwd = true)
    (Hnote : f !! (cwd ++ [x +:+ ".md"])%list = Some (FileN data))
    (Hx : String.index 0 ".md" x = None) :
  LogLine x ∈ noteCommand_list f cwd.
Proof. by apply (noteCommand_list_shows_go f cwd x data). Qed.

(** ** The properties on sample inputs *)

Lemma getNotedRepoRoot_deepest_witness :
  length ["home"; "Noted"; "ws"] < 4 /\
  match getNotedRepoRoot 4 demo_exists ["home"; "Noted"; "ws"] with
  | Some (Some d) =>
      d <> [] /\ d `prefix_of` ["home"; "Noted"; "ws"] /\ demo_exists (join d ".notedconfig") = true /\
      (forall a, a `prefix_of` ["home"; "Noted"; "ws"] -> length d < length a ->
                 demo_exists (join a ".notedconfig") = false)
  | Some None =>
      forall a, a `prefix_of` ["home"; "Noted"; "ws"] -> a <> [] -> demo_exists (join a ".notedconfig") = false
  | None => False
  end.
Proof. split; [simpl; lia|]. apply getNotedRepoRoot_deepest. simpl; lia. Defined.

Lemma locators_differ_only_at_root_witness :
  length ["home"; "Noted"; "ws"] < 4 /\
  findWorkspaceRoot 4 demo_exists ["home"; "Noted"; "ws"] =
  match getWorkspaceRoot 4 demo_exists ["home"; "Noted"; "ws"] with
  | Some None => Some (if demo_exists (join [] ".git") then Some [] else None)
  | r => r
  end.
Proof. split; [simpl; lia|]. apply locators_differ_only_at_root. simpl; lia. Defined.

Lemma navigateFolders_folder_choice_witness :
  "docs" ∈ getDirectories demo_entries /\ entry_name "docs" = true /\
  exists asked,
    navigateFolders ["ws"] ["ws"] "ws" demo_entries ("📂 " +:+ "docs") "Navigate Inside" "" =
    (asked :: AskList ("You selected folder " +:+ dq +:+ "docs" +:+ dq
                        +:+ ". What would you like to do?")
                ["Open in Finder"; "Navigate Inside"; "Go Back"; "Exit"]
           :: (if String.eqb "Navigate Inside" "Open in Finder" then [OpenFolderInFinder (["ws"] ++ ["docs"])%list]
               else if String.eqb "Navigate Inside" "Exit" then [Exiting] else []),
     if String.eqb "Navigate Inside" "Open in Finder" then NavReturn
     else if String.eqb "Navigate Inside" "Navigate Inside" then NavTo (["ws"] ++ ["docs"])%list "docs"
     else if String.eqb "Navigate Inside" "Exit" then NavReturn
     else NavTo ["ws"] "ws").
Proof.
  assert (H1 : "docs" ∈ getDirectories demo_entries) by (vm_compute; left).
  assert (H2 : entry_name "docs" = true) by reflexivity.
  split; [exact H1|]. split; [exact H2|].
  exact (navigateFolders_folder_choice ["ws"] ["ws"] "ws" demo_entries "docs" "Navigate Inside" "" H1 H2).
Defined.

Lemma navigateFolders_note_choice_witness :
  "n.md" ∈ getNotes demo_entries /\ entry_name "n.md" = true /\
  exists asked,
    navigateFolders ["ws"] ["ws"] "ws" demo_entries ("📝 " +:+ "n.md") "" "Open in Text Editor" =
    (asked :: AskList ("You selected note " +:+ dq +:+ "n.md" +:+ dq
                        +:+ ". What would you like to do?")
                ["Open in Text Editor"; "Go Back"; "Exit"]
           :: (if String.eqb "Open in Text Editor" "Open in Text Editor" then [OpenNoteInEditor (["ws"] ++ ["n.md"])%list]
               else if String.eqb "Open in Text Editor" "Exit" then [Exiting] else []),
     if String.eqb "Open in Text Editor" "Open in Text Editor" then NavReturn
     else if String.eqb "Open in Text Editor" "Exit" then NavReturn
     else NavTo ["ws"] "ws").
Proof.
  assert (H1 : "n.md" ∈ getNotes demo_entries) by (vm_compute; left).
  assert (H2 : entry_name "n.md" = true) by reflexivity.
  split; [exact H1|]. split; [exact H2|].
  exact (navigateFolders_note_choice ["ws"] ["ws"] "ws" demo_entries "n.md" "" "Open in Text Editor" H1 H2).
Defined.

Lemma foldersCommand_add_creates_witness :
  wf_fs demo_fs = true /\ is_dir demo_fs ["ws"] = true /\
  isMainNotedRepo demo_fs ["ws"] = false /\ entry_name "a" = true /\ size demo_fs < 5 /\
  exists k,
    demo_fs !! (["ws"] ++ [candidate "a" k])%list = None
    /\ (forall j, j < k -> is_Some (demo_fs !! (["ws"] ++ [candidate "a" j])%list))
    /\ foldersCommand_add blank_engine 5 ["ws"] (Some "a") false (mkSt (demo_fs, tt) [] [])
       = Some ((if false
                then log ("✔ Folder added without tracking: " +:+ candidate "a" k)
                else Helper.commitChanges (crun blank_engine) ["ws"] ("Add folder: " +:+ candidate "a" k))
               (mkSt (<[(["ws"] ++ [candidate "a" k; ".gitkeep"])%list := FileN ""]>
                       (<[(["ws"] ++ [candidate "a" k])%list := DirN]> demo_fs), tt) []
                     ([] ++ [LogLine ("✔ Added folder: " +:+ candidate "a" k);
                              LogLine ("✔ Created .gitkeep file in folder: " +:+ candidate "a" k)])%list)).
Proof.
  assert (H1 : wf_fs demo_fs = true) by (vm_compute; reflexivity).
  assert (H2 : is_dir demo_fs ["ws"] = true) by (vm_compute; reflexivity).
  assert (H3 : isMainNotedRepo demo_fs ["ws"] = false) by (vm_compute; reflexivity).
  assert (H4 : entry_name "a" = true) by reflexivity.
  assert (H5 : size demo_fs < 5) by (vm_compute; lia).
  do 5 (split; [assumption|]).
  exact (foldersCommand_add_creates blank_engine 5 ["ws"] "a" false demo_fs tt [] [] H1 H2 H3 H4 H5).
Defined.

Lemma noteCommand_add_creates_witness :
  is_dir demo_fs ["ws"] = true /\ isMainNotedRepo demo_fs ["ws"] = false /\
  no_slash "n" = true /\ size demo_fs < 5 /\
  exists k,
    demo_fs !! (["ws"] ++ [candidate "n" k +:+ ".md"])%list = None
    /\ (forall j, j < k -> is_Some (demo_fs !! (["ws"] ++ [candidate "n" j +:+ ".md"])%list))
    /\ noteCommand_add blank_engine 5 ["ws"] (Some "n") true (mkSt (demo_fs, tt) [] [])
       = Some ((if true
                then log ("✔ Created untracked note: " +:+ candidate "n" k)
                else Helper.commitChanges (crun blank_engine) ["ws"] ("Add note: " +:+ candidate "n" k))
               (mkSt (<[(["ws"] ++ [candidate "n" k +:+ ".md"])%list
                          := FileN ("# " +:+ candidate "n" k +:+ newline)]> demo_fs, tt) []
                     ([] ++ [LogLine ("✔ Created note: " +:+ candidate "n" k
                                       +:+ " in the current workspace")])%list)).
Proof.
  assert (H1 : is_dir demo_fs ["ws"] = true) by (vm_compute; reflexivity).
  assert (H2 : isMainNotedRepo demo_fs ["ws"] = false) by (vm_compute; reflexivity).
  assert (H3 : no_slash "n" = true) by reflexivity.
  assert (H4 : size demo_fs < 5) by (vm_compute; lia).
  do 4 (split; [assumption|]).
  exact (noteCommand_add_creates blank_engine 5 ["ws"] "n" true demo_fs tt [] [] H1 H2 H3 H4).
Defined.

Lemma noteCommand_delete_not_a_file_witness :
  (let np := join_str ["ws"] (if endsWith "a" ".md" then "a" else "a" +:+ ".md") in
   existsSync demo_fs np && negb (is_dir demo_fs np) = false) /\
  (let np := join_str ["ws"] (if endsWith "a" ".md" then "a" else "a" +:+ ".md") in
   noteCommand_delete blank_engine ["ws"] "a" (mkSt (demo_fs, tt) [] [])
   = (Ok tt, mkSt (demo_fs, tt) []
               ([] ++ [ErrorLine
                  (if existsSync demo_fs np
                   then "✖ Error deleting note: Path is a directory: rm returned EISDIR (is a directory) "
                        +:+ path_str np
                   else "✖ Error: Note '" +:+ "a" +:+ "' does not exist.")])%list)).
Proof.
  assert (H : let np := join_str ["ws"] (if endsWith "a" ".md" then "a" else "a" +:+ ".md") in
              existsSync demo_fs np && negb (is_dir demo_fs np) = false)
    by (vm_compute; reflexivity).
  split; [exact H|].
  exact (noteCommand_delete_not_a_file blank_engine ["ws"] "a" demo_fs tt [] [] H).
Defined.

Lemma foldersCommand_delete_dot_names_witness :
  wf_fs demo_fs = true /\ existsSync demo_fs ["ws"; "a"] = true /\
  (".." = "" \/ ".." = "." \/ ".." = "..") /\
  forall k, (if String.eqb ".." ".." then dirname ["ws"; "a"] else ["ws"; "a"]) `prefix_of` k ->
  (st_eng (foldersCommand_delete blank_engine ["ws"; "a"] ".." (mkSt (demo_fs, tt) [] [])).2).1 !! k = None.
Proof.
  assert (H1 : wf_fs demo_fs = true) by (vm_compute; reflexivity).
  assert (H2 : existsSync demo_fs ["ws"; "a"] = true) by (vm_compute; reflexivity).
  assert (H3 : ".." = "" \/ ".." = "." \/ ".." = "..") by (right; right; reflexivity).
  split; [exact H1|]. split; [exact H2|]. split; [exact H3|].
  exact (foldersCommand_delete_dot_names blank_engine ["ws"; "a"] ".." demo_fs tt [] [] H1 H2 H3).
Defined.



Lemma workspaceCommand_list_names_witness :
  demo_status <> [] /\
  forallb (fun e =>
              let '(st, sha, p, desc) := e in
              (Ascii.eqb st " " || Ascii.eqb st "+" || Ascii.eqb st "-" || Ascii.eqb st "U")
              && negb (String.eqb sha "") && no_ws sha && no_ws p
              && match desc with Some d => no_ws d | None => true end) demo_status = true /\
  workspaceCommand_list
    (foldr (fun e acc => let '(st, sha, p, desc) := e in status_line st sha p desc +:+ acc)
       "" demo_status) false
  = LogLine "Workspaces (Submodules):"
    :: map (fun e => let '(st, sha, p, desc) := e in
                     LogLine (if Ascii.eqb st " " then p
                              else match desc with
                                   | Some d => "(" +:+ d +:+ ")"
                                   | None => "undefined"
                                   end)) demo_status.
Proof.
  assert (H1 : demo_status <> []) by discriminate.
  assert (H2 : forallb (fun e =>
              let '(st, sha, p, desc) := e in
              (Ascii.eqb st " " || Ascii.eqb st "+" || Ascii.eqb st "-" || Ascii.eqb st "U")
              && negb (String.eqb sha "") && no_ws sha && no_ws p
              && match desc with Some d => no_ws d | None => true end) demo_status = true)
    by (vm_compute; reflexivity).
  split; [exact H1|]. split; [exact H2|].
  exact (workspaceCommand_list_names demo_status H1 H2).
Defined.



Lemma foldersCommand_list_spec_witness :
  is_dir demo_fs ["ws"] = true /\
  (LogLine "a" ∈ foldersCommand_list demo_fs ["ws"] <->
   (demo_fs !! (["ws"] ++ ["a"])%list = Some DirN /\ startsWith "a" "." = false)
   \/ ("a" = "No folders found." /\
       forall c, demo_fs !! (["ws"] ++ [c])%list = Some DirN -> startsWith c "." = true)).
Proof.
  assert (H : is_dir demo_fs ["ws"] = true) by (vm_compute; reflexivity).
  split; [exact H|]. exact (foldersCommand_list_spec demo_fs ["ws"] "a" H).
Defined.

Lemma noteCommand_list_spec_witness :
  is_dir demo_fs ["ws"] = true /\
  (LogLine "n" ∈ noteCommand_list demo_fs ["ws"] <->
   (exists name data, demo_fs !! (["ws"] ++ [name])%list = Some (FileN data)
                      /\ endsWith name ".md" = true /\ "n" = js_replace name ".md" "")
   \/ ("n" = "No notes found in the current workspace." /\
       forall name data, demo_fs !! (["ws"] ++ [name])%list = Some (FileN data) ->
                         endsWith name ".md" = false)).
Proof.
  assert (H : is_dir demo_fs ["ws"] = true) by (vm_compute; reflexivity).
  split; [exact H|]. exact (noteCommand_list_spec demo_fs ["ws"] "n" H).
Defined.

Lemma noteCommand_list_shows_note_witness :
  is_dir demo_fs ["ws"] = true /\
  demo_fs !! (["ws"] ++ ["n" +:+ ".md"])%list = Some (FileN "# n") /\
  String.index 0 ".md" "n" = None /\
  LogLine "n" ∈ noteCommand_list demo_fs ["ws"].
Proof.
  assert (H1 : is_dir demo_fs ["ws"] = true) by (vm_compute; reflexivity).
  assert (H2 : demo_fs !! (["ws"] ++ ["n" +:+ ".md"])%list = Some (FileN "# n"))
    by (vm_compute; reflexivity).
  assert (H3 : String.index 0 ".md" "n" = None) by (vm_compute; reflexivity).
  do 3 (split; [assumption|]).
  exact (noteCommand_list_shows_note demo_fs ["ws"] "n" "# n" H1 H2 H3).
Defined.
